(** * Detox control-channel client: [detox/src/client/Client.js]

    A shallow embedding of the [Client] class and of the event loop it runs
    on.  One step of the model is one macro-task of the JavaScript event
    loop, run until the micro-task queue is empty: a call made by the test
    code, a reply or an unsolicited notice handed over by the transport, or
    a timer that fires.  An [async] method is cut at the places where it
    really suspends ([await this.ws.send(...)]); what remains to be done
    after such a place is recorded, per in-flight message, by the [Caller]
    that awaits it.  When several promises settle in one macro-task, as they
    do in [rejectAll], their callers are resumed one after the other. *)

From Stdlib Require Import ZArith List String Ascii Bool Lia DecimalString Permutation.
Import ListNotations.
Local Open Scope string_scope.
Local Open Scope list_scope.
Local Open Scope Z_scope.

Set Implicit Arguments.

(** ** JavaScript values and completions *)

(** The values that cross the channel: what [JSON.parse] can return, and
    [undefined]. *)
#[warnings="-register-all"]
Inductive JsVal : Type :=
| JUndefined
| JNull
| JBool (b : bool)
| JNum (n : Z)
| JStr (s : string)
| JArr (items : list JsVal)
| JObj (fields : list (string * JsVal)).

(** ToBoolean, as used by [if (x)], [!x] and [x ? a : b]. *)
Definition truthy (v : JsVal) : bool :=
  match v with
  | JUndefined | JNull => false
  | JBool b => b
  | JNum n => negb (n =? 0)
  | JStr s => negb (String.eqb s EmptyString)
  | JArr _ | JObj _ => true
  end.

(** The outcome of evaluating an expression or of settling a promise:
    a value, or a thrown value (a rejection). *)
Inductive Completion (A : Type) : Type :=
| Normal (a : A)
| Throw (e : JsVal).
Arguments Normal {A} a.
Arguments Throw {A} e.

Definition bind {A B : Type} (c : Completion A) (k : A -> Completion B)
  : Completion B :=
  match c with
  | Normal a => k a
  | Throw e => Throw e
  end.

Notation "x <- c ;; k" := (bind c (fun x => k))
  (at level 61, c at next level, right associativity).

Fixpoint assoc (k : string) (fields : list (string * JsVal)) : JsVal :=
  match fields with
  | [] => JUndefined
  | (k', v) :: rest => if String.eqb k k' then v else assoc k rest
  end.

(** ** Actions, as [Client.js] uses them

    An action is the object handed to [ws.send]: it carries [messageId],
    [type] and [params], and interprets the parsed reply with [handle]. *)
Record Action : Type := {
  messageId : Z;
  type : string;
  params : JsVal;
  handle : JsVal -> Completion JsVal
}.

(** The modules [Client.js] requires and that are not part of the verified
    file: the action catalogue ([./actions/actions]), [argparse],
    [errorUtils], and the [JSON] built-ins.  Everything below is stated for
    every implementation of them. *)
Record ActionCatalogue : Type := {
  Login : JsVal -> Action;
  ReloadReactNative : Action;
  Ready : Action;
  WaitForBackground : Action;
  WaitForActive : Action;
  Cleanup : bool -> Action;
  CurrentStatus : Action;
  SetSyncSettings : JsVal -> Action;
  Shake : Action;
  SetOrientation : JsVal -> Action;
  SetInstrumentsRecordingState : JsVal -> Action;
  DeliverPayload : JsVal -> Action;
  Invoke : JsVal -> Action;
  AppWillTerminateWithError : Action;
  AppNonresponsive : Action
}.

Class Externals : Type := {
  actions : ActionCatalogue;
  (** [argparse.getArgValue('debug-synchronization')] *)
  debugSynchronization : JsVal;
  JSON_parse : string -> Completion JsVal;
  JSON_stringify : JsVal -> string;
  asError : JsVal -> JsVal;
  removeInternalStackEntries : JsVal -> JsVal;
  (** the [TypeError] thrown when a property of [undefined] or [null] is read *)
  typeError : JsVal
}.

(** [o.k] *)
Definition getProp `{Externals} (o : JsVal) (k : string) : Completion JsVal :=
  match o with
  | JUndefined | JNull => Throw typeError
  | JObj fields => Normal (assoc k fields)
  | JBool _ | JNum _ | JStr _ | JArr _ => Normal JUndefined
  end.

(** ** Promises of the test code and continuations of the client *)

(** A call of a client method by the test code is named by the caller, and
    the promise it returns is reported under that name when it settles. *)
Definition CallId : Type := nat.
Definition TimerId : Type := nat.

(** Who awaits the reply to a message sent with [sendAction]. *)
Inductive Caller : Type :=
| FromPlain (cid : CallId)          (* [await this.sendAction(...)] and nothing after it *)
| FromWaitUntilReady (cid : CallId)
| FromCleanup (cid : CallId)
| FromExecute (cid : CallId)
| FromWatchdog.                     (* the timer callback of [slowInvocationStatus] *)

(** The callbacks [Client.js] passes to [setActionListener]. *)
Inductive ClientCallback : Type :=
| CrashCallback
| NonresponsivenessCallback.

(** ** The transport *)

Record InFlight : Type := {
  message : Action;
  awaiting : Caller
}.

(** Modelled from the spec: [AsyncWebSocket] is not part of the verified
    file.  The transport reports whether the channel is open, keeps an
    inspectable mapping from correlation id to in-flight entry, and a
    registry of event callbacks keyed by correlation id. *)
Record AsyncWebSocket : Type := {
  opened : bool;
  inFlightPromises : list (Z * InFlight);
  eventCallbacks : list (Z * (Action * ClientCallback))
}.

Section Objects.
Variable V : Type.

(** The mapping is a JavaScript object keyed by the message id.  The list
    holds its properties in the order [_.values] enumerates them: the keys
    that are array indices in ascending order, then the other keys in the
    order they were created. *)
Definition isArrayIndex (k : Z) : bool := (0 <=? k) && (k <? 4294967295).

Fixpoint obj_get (k : Z) (o : list (Z * V)) : option V :=
  match o with
  | [] => None
  | (k', v) :: rest => if k =? k' then Some v else obj_get k rest
  end.

Fixpoint obj_replace (k : Z) (v : V) (o : list (Z * V)) : list (Z * V) :=
  match o with
  | [] => []
  | (k', v') :: rest =>
      if k =? k' then (k', v) :: rest else (k', v') :: obj_replace k v rest
  end.

Fixpoint obj_insert_index (k : Z) (v : V) (o : list (Z * V)) : list (Z * V) :=
  match o with
  | [] => [(k, v)]
  | (k', v') :: rest =>
      if isArrayIndex k' && (k' <? k)
      then (k', v') :: obj_insert_index k v rest
      else (k, v) :: o
  end.

(** [o[k] = v] *)
Definition obj_set (k : Z) (v : V) (o : list (Z * V)) : list (Z * V) :=
  match obj_get k o with
  | Some _ => obj_replace k v o
  | None => if isArrayIndex k then obj_insert_index k v o else o ++ [(k, v)]
  end.

(** [delete o[k]] *)
Fixpoint obj_delete (k : Z) (o : list (Z * V)) : list (Z * V) :=
  match o with
  | [] => []
  | (k', v') :: rest =>
      if k =? k' then rest else (k', v') :: obj_delete k rest
  end.

(** [_.values(o)] *)
Definition obj_values (o : list (Z * V)) : list V := map snd o.
End Objects.

(** ** The client object and the world around it *)

Record Config : Type := {
  server : JsVal;
  sessionId : JsVal
}.

(** The fields of [Client], with the names the source gives them. *)
Record Client : Type := {
  isConnected : bool;
  configuration : Config;
  ws : AsyncWebSocket;
  slowInvocationStatusHandler : option TimerId;   (* [null] is [None] *)
  slowInvocationTimeout : JsVal;
  successfulTestRun : bool;
  pandingAppCrash : JsVal
}.

(** The client together with what it acts on: the timers of the event loop
    and what an observer sees. *)
Record World : Type := {
  client : Client;
  timers : list TimerId;          (* set by [setTimeout], neither fired nor cleared *)
  nextTimer : TimerId;
  sent : list Action;             (* messages handed to the channel, newest first *)
  rejected : list (Z * JsVal);    (* in-flight promises that were rejected, newest first *)
  settled : list (CallId * Completion JsVal);  (* outcomes of the calls, newest first *)
  warnings : list string;         (* [log.warn], newest first *)
  notified : list JsVal           (* calls of the nonresponsiveness callback *)
}.

(** *** Field updates *)

Definition set_isConnected (b : bool) (c : Client) : Client :=
  {| isConnected := b;
     configuration := configuration c;
     ws := ws c;
     slowInvocationStatusHandler := slowInvocationStatusHandler c;
     slowInvocationTimeout := slowInvocationTimeout c;
     successfulTestRun := successfulTestRun c;
     pandingAppCrash := pandingAppCrash c |}.

Definition set_ws (t : AsyncWebSocket) (c : Client) : Client :=
  {| isConnected := isConnected c;
     configuration := configuration c;
     ws := t;
     slowInvocationStatusHandler := slowInvocationStatusHandler c;
     slowInvocationTimeout := slowInvocationTimeout c;
     successfulTestRun := successfulTestRun c;
     pandingAppCrash := pandingAppCrash c |}.

Definition set_slowInvocationStatusHandler (h : option TimerId) (c : Client)
  : Client :=
  {| isConnected := isConnected c;
     configuration := configuration c;
     ws := ws c;
     slowInvocationStatusHandler := h;
     slowInvocationTimeout := slowInvocationTimeout c;
     successfulTestRun := successfulTestRun c;
     pandingAppCrash := pandingAppCrash c |}.

Definition set_successfulTestRun (b : bool) (c : Client) : Client :=
  {| isConnected := isConnected c;
     configuration := configuration c;
     ws := ws c;
     slowInvocationStatusHandler := slowInvocationStatusHandler c;
     slowInvocationTimeout := slowInvocationTimeout c;
     successfulTestRun := b;
     pandingAppCrash := pandingAppCrash c |}.

Definition set_pandingAppCrash (v : JsVal) (c : Client) : Client :=
  {| isConnected := isConnected c;
     configuration := configuration c;
     ws := ws c;
     slowInvocationStatusHandler := slowInvocationStatusHandler c;
     slowInvocationTimeout := slowInvocationTimeout c;
     successfulTestRun := successfulTestRun c;
     pandingAppCrash := v |}.

Definition set_client (c : Client) (w : World) : World :=
  {| client := c;
     timers := timers w;
     nextTimer := nextTimer w;
     sent := sent w;
     rejected := rejected w;
     settled := settled w;
     warnings := warnings w;
     notified := notified w |}.

Definition on_client (f : Client -> Client) (w : World) : World :=
  set_client (f (client w)) w.

Definition on_ws (f : AsyncWebSocket -> AsyncWebSocket) (w : World) : World :=
  on_client (fun c => set_ws (f (ws c)) c) w.

(** The promise of call [cid] settles with [r]. *)
Definition settle (cid : CallId) (r : Completion JsVal) (w : World) : World :=
  {| client := client w;
     timers := timers w;
     nextTimer := nextTimer w;
     sent := sent w;
     rejected := rejected w;
     settled := (cid, r) :: settled w;
     warnings := warnings w;
     notified := notified w |}.

(** *** Timers of the event loop *)

(** [setTimeout(callback, delay)]: a fresh handle; the callback is always the
    one of [slowInvocationStatus], see [fire]. *)
Definition setTimeout (w : World) : TimerId * World :=
  (nextTimer w,
   {| client := client w;
      timers := nextTimer w :: timers w;
      nextTimer := S (nextTimer w);
      sent := sent w;
      rejected := rejected w;
      settled := settled w;
      warnings := warnings w;
      notified := notified w |}).

(** [clearTimeout(handle)]: nothing happens for [null] and for a handle that
    has fired or was cleared before. *)
Definition clearTimeout (handle : option TimerId) (w : World) : World :=
  match handle with
  | None => w
  | Some h =>
      {| client := client w;
         timers := filter (fun h' => negb (Nat.eqb h' h)) (timers w);
         nextTimer := nextTimer w;
         sent := sent w;
         rejected := rejected w;
         settled := settled w;
         warnings := warnings w;
         notified := notified w |}
  end.

(** *** The transport's operations

    Modelled from the spec: the methods of [AsyncWebSocket], which is not
    part of the verified file. *)

Definition inFlight (w : World) : list (Z * InFlight) :=
  inFlightPromises (ws (client w)).

(** [ws.isOpen()] *)
Definition ws_isOpen (w : World) : bool := opened (ws (client w)).

Definition set_opened (b : bool) (t : AsyncWebSocket) : AsyncWebSocket :=
  {| opened := b;
     inFlightPromises := inFlightPromises t;
     eventCallbacks := eventCallbacks t |}.

Definition set_inFlightPromises (o : list (Z * InFlight)) (t : AsyncWebSocket)
  : AsyncWebSocket :=
  {| opened := opened t;
     inFlightPromises := o;
     eventCallbacks := eventCallbacks t |}.

Definition set_eventCallbacks (o : list (Z * (Action * ClientCallback)))
  (t : AsyncWebSocket) : AsyncWebSocket :=
  {| opened := opened t;
     inFlightPromises := inFlightPromises t;
     eventCallbacks := o |}.

(** Modelled from the spec: [ws.open()] opens the channel. *)
Definition ws_open (w : World) : World := on_ws (set_opened true) w.

(** Modelled from the spec: [ws.close()] on an open channel closes it and
    resolves; [Client.js] calls it only when [ws.isOpen()]. *)
Definition ws_close (w : World) : World := on_ws (set_opened false) w.

(** Modelled from the spec: [ws.send(message, id)] hands the message to the
    channel, tagged with the correlation id, and keeps it in flight until its
    promise is resolved or rejected. *)
Definition ws_send (action : Action) (id : Z) (k : Caller) (w : World) : World :=
  let w1 :=
    on_ws (fun t =>
      set_inFlightPromises
        (obj_set id {| message := action; awaiting := k |} (inFlightPromises t)) t) w in
  {| client := client w1;
     timers := timers w1;
     nextTimer := nextTimer w1;
     sent := action :: sent w1;
     rejected := rejected w1;
     settled := settled w1;
     warnings := warnings w1;
     notified := notified w1 |}.

(** Modelled from the spec: [ws.setEventCallback(id, handler)]. *)
Definition ws_setEventCallback (id : Z) (h : Action * ClientCallback)
  (t : AsyncWebSocket) : AsyncWebSocket :=
  set_eventCallbacks (obj_set id h (eventCallbacks t)) t.

(** Modelled from the spec: [ws.resetInFlightPromises()] clears the
    bookkeeping; the promises are left unsettled. *)
Definition ws_resetInFlightPromises (w : World) : World :=
  on_ws (set_inFlightPromises []) w.

(** The transport takes entry [id] out of its bookkeeping; when the promise
    is rejected, the reason is recorded. *)
Definition ws_forget (id : Z) (w : World) : World :=
  on_ws (fun t => set_inFlightPromises (obj_delete id (inFlightPromises t)) t) w.

Definition note_rejected (id : Z) (e : JsVal) (w : World) : World :=
  {| client := client w;
     timers := timers w;
     nextTimer := nextTimer w;
     sent := sent w;
     rejected := (id, e) :: rejected w;
     settled := settled w;
     warnings := warnings w;
     notified := notified w |}.

(** ** The methods of [Client] *)

(** The argument of [execute]: a ready value, or a zero-argument function,
    given by what calling it does (it returns a value or it throws). *)
Inductive Invocation : Type :=
| Value (v : JsVal)
| Producer (returns : Completion JsVal).

(** [getPendingCrashAndReset()] *)
Definition getPendingCrashAndReset (c : Client) : JsVal * Client :=
  let crash := pandingAppCrash c in
  (crash, set_pandingAppCrash JUndefined c).

(** Text of a number inside a template literal. *)
Definition showZ (n : Z) : string := NilEmpty.string_of_int (Z.to_int n).

Definition nl : string := String (ascii_of_nat 10) EmptyString.
Definition dquote : string := String (ascii_of_nat 34) EmptyString.

Definition warn (text : string) (w : World) : World :=
  {| client := client w;
     timers := timers w;
     nextTimer := nextTimer w;
     sent := sent w;
     rejected := rejected w;
     settled := settled w;
     warnings := text :: warnings w;
     notified := notified w |}.

Section Methods.
Context `{Externals}.

(** [setActionListener(action, clientCallback)]: the handler, see
    [actionListener], is registered under the action's id. *)
Definition setActionListener (action : Action) (clientCallback : ClientCallback)
  (t : AsyncWebSocket) : AsyncWebSocket :=
  ws_setEventCallback (messageId action) (action, clientCallback) t.

(** [new Client(config)]: the transport starts closed and empty, and the
    crash listener is registered. *)
Definition new_Client (config : Config) : World :=
  {| client :=
       {| isConnected := false;
          configuration := config;
          ws := setActionListener (AppWillTerminateWithError actions) CrashCallback
                  {| opened := false; inFlightPromises := []; eventCallbacks := [] |};
          slowInvocationStatusHandler := None;
          slowInvocationTimeout := debugSynchronization;
          successfulTestRun := true;
          pandingAppCrash := JUndefined |};
     timers := [];
     nextTimer := 0%nat;
     sent := [];
     rejected := [];
     settled := [];
     warnings := [];
     notified := [] |}.

(** [sendAction(action)] up to its [await]: the message is on its way and
    [k] waits for the reply. *)
Definition sendAction (action : Action) (k : Caller) (w : World) : World :=
  ws_send action (messageId action) k w.

(** [sendAction(action)] after its [await]: the raw reply is parsed and
    handed to the action; a rejection of the send is passed on. *)
Definition interpret (action : Action) (response : Completion string)
  : Completion JsVal :=
  raw <- response ;;
  parsedResponse <- JSON_parse raw ;;
  handle action parsedResponse.

(** [slowInvocationStatus()] *)
Definition slowInvocationStatus (w : World) : TimerId * World := setTimeout w.

(** [this.slowInvocationStatusHandler = this.slowInvocationStatus()] *)
Definition arm (w : World) : World :=
  let (h, w1) := slowInvocationStatus w in
  on_client (set_slowInvocationStatusHandler (Some h)) w1.

(** [clearTimeout(this.slowInvocationStatusHandler)] *)
Definition disarm (w : World) : World :=
  clearTimeout (slowInvocationStatusHandler (client w)) w.

(** The end of [cleanup()]: [if (this.ws.isOpen()) await this.ws.close()]. *)
Definition cleanup_close (cid : CallId) (w : World) : World :=
  settle cid (Normal JUndefined) (if ws_isOpen w then ws_close w else w).

(** [cleanup()] up to the place where it suspends or returns. *)
Definition cleanup (cid : CallId) (w : World) : World :=
  let w1 := disarm w in
  if isConnected (client w1) && negb (truthy (pandingAppCrash (client w1))) then
    if ws_isOpen w1 then
      sendAction (Cleanup actions (successfulTestRun (client w1))) (FromCleanup cid) w1
    else
      cleanup_close cid (on_client (set_isConnected false) w1)
  else
    cleanup_close cid w1.

(** [execute(invocation)] up to the place where it suspends or throws. *)
Definition execute (cid : CallId) (invocation : Invocation) (w : World) : World :=
  match (match invocation with Value v => Normal v | Producer r => r end) with
  | Throw e => settle cid (Throw e) w
  | Normal v =>
      let w1 := if truthy (slowInvocationTimeout (client w)) then arm w else w in
      sendAction (Invoke actions v) (FromExecute cid) w1
  end.

(** What the caller that awaits [entry] does once the send has settled with
    [response]. *)
Definition resume (entry : InFlight) (response : Completion string) (w : World)
  : World :=
  let result := interpret (message entry) response in
  match awaiting entry with
  | FromPlain cid =>
      settle cid (_ <- result ;; Normal JUndefined) w
  | FromWaitUntilReady cid =>
      match result with
      | Normal _ => settle cid (Normal JUndefined) (on_client (set_isConnected true) w)
      | Throw e => settle cid (Throw e) w
      end
  | FromCleanup cid =>
      match result with
      | Normal _ => cleanup_close cid (on_client (set_isConnected false) w)
      | Throw e => settle cid (Throw e) w
      end
  | FromExecute cid =>
      match result with
      | Normal v => settle cid (Normal v) (disarm w)
      | Throw err =>
          let w1 := on_client (set_successfulTestRun false) w in
          settle cid (Throw (removeInternalStackEntries (asError err))) (disarm w1)
      end
  | FromWatchdog =>
      match result with
      | Normal _ => arm w
      | Throw _ => w
      end
  end.

(** Modelled from the spec: [ws.rejectAll(error)] rejects every pending
    promise with [error], entry after entry, and clears the bookkeeping;
    the callers that were waiting then run. *)
Fixpoint rejectEach (error : JsVal) (pending : list (Z * InFlight)) (w : World)
  : World :=
  match pending with
  | [] => w
  | (id, entry) :: rest =>
      rejectEach error rest (resume entry (Throw error) (note_rejected id error w))
  end.

Definition ws_rejectAll (error : JsVal) (w : World) : World :=
  rejectEach error (inFlight w) (ws_resetInFlightPromises w).

(** The callback the constructor registers for [AppWillTerminateWithError]. *)
Definition crashListener (response : JsVal) (w : World) : World :=
  match (p <- getProp response "params" ;; getProp p "errorDetails") with
  | Throw _ => w   (* the [TypeError] leaves through the transport *)
  | Normal errorDetails =>
      let w1 := on_client (set_pandingAppCrash errorDetails) w in
      ws_rejectAll (pandingAppCrash (client w1)) w1
  end.

(** The callback of [setNonresponsivenessListener]; the caller's callback is
    outside the client, its calls are recorded. *)
Definition nonresponsivenessListener (event : JsVal) (w : World) : World :=
  match getProp event "params" with
  | Throw _ => w
  | Normal p =>
      {| client := client w;
         timers := timers w;
         nextTimer := nextTimer w;
         sent := sent w;
         rejected := rejected w;
         settled := settled w;
         warnings := warnings w;
         notified := p :: notified w |}
  end.

(** The handler [setActionListener] installs in the transport. *)
Definition actionListener (action : Action) (clientCallback : ClientCallback)
  (response : string) (w : World) : World :=
  match (parsedResponse <- JSON_parse response ;;
         _ <- handle action parsedResponse ;;
         Normal parsedResponse) with
  | Throw _ => w
  | Normal parsedResponse =>
      match clientCallback with
      | CrashCallback => crashListener parsedResponse w
      | NonresponsivenessCallback => nonresponsivenessListener parsedResponse w
      end
  end.

(** [dumpPendingRequests({testName})] *)
Definition pendingMessages (w : World) : list Action :=
  filter (fun m => negb (String.eqb (type m) "currentStatus"))
         (map (@message) (obj_values (inFlight w))).

Definition dumpLine (msg : Action) : string :=
  (nl ++ "  (id = " ++ showZ (messageId msg) ++ ") " ++ type msg ++ ": "
      ++ JSON_stringify (params msg))%string.

Definition dumpNotice (testName : option string) : string :=
  match testName with
  | Some name =>
      if String.eqb name EmptyString
      then "Unresponded network requests might result in timeout errors in Detox tests."
      else ("That might be the reason why the test " ++ dquote ++ name ++ dquote
              ++ " has timed out.")%string
  | None => "Unresponded network requests might result in timeout errors in Detox tests."
  end.

Definition dumpText (messages : list Action) (testName : option string) : string :=
  let dump :=
    fold_left (fun dump msg => (dump ++ dumpLine msg)%string) messages
              "App has not responded to the network requests below:" in
  (dump ++ nl ++ nl ++ dumpNotice testName ++ nl)%string.

Definition dumpPendingRequests (testName : option string) (w : World) : World :=
  let messages := pendingMessages w in
  match messages with
  | [] => w
  | _ :: _ => ws_resetInFlightPromises (warn (dumpText messages testName) w)
  end.
End Methods.

(** ** The event loop *)

(** The public methods, as the test code calls them. *)
Inductive Method : Type :=
| m_connect (opening : Completion unit)   (* with the outcome of [ws.open()] *)
| m_reloadReactNative
| m_waitUntilReady
| m_waitForBackground
| m_waitForActive
| m_cleanup
| m_currentStatus
| m_setSyncSettings (params : JsVal)
| m_shake
| m_setOrientation (orientation : JsVal)
| m_startInstrumentsRecording (recordingPath samplingInterval : JsVal)
| m_stopInstrumentsRecording
| m_deliverPayload (params : JsVal)
| m_execute (invocation : Invocation)
| m_getPendingCrashAndReset
| m_setNonresponsivenessListener
| m_dumpPendingRequests (testName : option string).

Inductive Event : Type :=
| Call (cid : CallId) (m : Method)   (* the test code calls a method *)
| Reply (id : Z) (raw : string)      (* the reply to in-flight message [id] arrives *)
| Reject (id : Z) (err : JsVal)      (* the transport rejects in-flight message [id] *)
| Notice (id : Z) (raw : string)     (* an unsolicited message for event callback [id] *)
| TimerFires (h : TimerId)
| Dropped.                           (* the channel goes down *)

Section EventLoop.
Context `{Externals}.

Definition call (cid : CallId) (m : Method) (w : World) : World :=
  match m with
  | m_connect opening =>
      match opening with
      | Throw e => settle cid (Throw e) w
      | Normal _ =>
          sendAction (Login actions (sessionId (configuration (client w))))
                     (FromPlain cid) (ws_open w)
      end
  | m_reloadReactNative => sendAction (ReloadReactNative actions) (FromPlain cid) w
  | m_waitUntilReady => sendAction (Ready actions) (FromWaitUntilReady cid) w
  | m_waitForBackground => sendAction (WaitForBackground actions) (FromPlain cid) w
  | m_waitForActive => sendAction (WaitForActive actions) (FromPlain cid) w
  | m_cleanup => cleanup cid w
  | m_currentStatus => sendAction (CurrentStatus actions) (FromPlain cid) w
  | m_setSyncSettings params =>
      sendAction (SetSyncSettings actions params) (FromPlain cid) w
  | m_shake => sendAction (Shake actions) (FromPlain cid) w
  | m_setOrientation orientation =>
      sendAction (SetOrientation actions orientation) (FromPlain cid) w
  | m_startInstrumentsRecording recordingPath samplingInterval =>
      sendAction
        (SetInstrumentsRecordingState actions
           (JObj [("recordingPath", recordingPath);
                  ("samplingInterval", samplingInterval)]))
        (FromPlain cid) w
  | m_stopInstrumentsRecording =>
      sendAction (SetInstrumentsRecordingState actions JUndefined) (FromPlain cid) w
  | m_deliverPayload params =>
      sendAction (DeliverPayload actions params) (FromPlain cid) w
  | m_execute invocation => execute cid invocation w
  | m_getPendingCrashAndReset =>
      let (crash, c) := getPendingCrashAndReset (client w) in
      settle cid (Normal crash) (set_client c w)
  | m_setNonresponsivenessListener =>
      settle cid (Normal JUndefined)
        (on_ws (setActionListener (AppNonresponsive actions) NonresponsivenessCallback) w)
  | m_dumpPendingRequests testName =>
      settle cid (Normal JUndefined) (dumpPendingRequests testName w)
  end.

(** A timer set by [slowInvocationStatus] fires: if the channel is open the
    status query goes out, and the callback waits for its reply. *)
Definition fire (h : TimerId) (w : World) : World :=
  if existsb (Nat.eqb h) (timers w) then
    let w1 := clearTimeout (Some h) w in
    if ws_isOpen w1 then sendAction (CurrentStatus actions) FromWatchdog w1 else w1
  else w.

Definition step (e : Event) (w : World) : World :=
  match e with
  | Call cid m => call cid m w
  | Reply id raw =>
      match obj_get id (inFlight w) with
      | Some entry => resume entry (Normal raw) (ws_forget id w)
      | None => w
      end
  | Reject id err =>
      match obj_get id (inFlight w) with
      | Some entry => resume entry (Throw err) (note_rejected id err (ws_forget id w))
      | None => w
      end
  | Notice id raw =>
      match obj_get id (eventCallbacks (ws (client w))) with
      | Some (action, clientCallback) => actionListener action clientCallback raw w
      | None => w
      end
  | TimerFires h => fire h w
  | Dropped => ws_close w
  end.

Definition run (events : list Event) (w : World) : World :=
  fold_left (fun w' e => step e w') events w.

(** Event [e] reaches the crash callback in [w]: it is a notice for the id
    under which the crash listener is registered, it parses, and the action
    accepts it. *)
Definition deliversCrash (e : Event) (w : World) : bool :=
  match e with
  | Notice id raw =>
      match obj_get id (eventCallbacks (ws (client w))) with
      | Some (action, CrashCallback) =>
          match (parsedResponse <- JSON_parse raw ;; handle action parsedResponse) with
          | Normal _ => true
          | Throw _ => false
          end
      | _ => false
      end
  | _ => false
  end.

(** No crash notice arrives during [events], started in [w]. *)
Fixpoint crashFree (events : list Event) (w : World) : bool :=
  match events with
  | [] => true
  | e :: rest => negb (deliversCrash e w) && crashFree rest (step e w)
  end.

(** The test code polls for a crash. *)
Definition isCrashPoll (e : Event) : bool :=
  match e with
  | Call _ m_getPendingCrashAndReset => true
  | _ => false
  end.

(** The transport settles the send of message [id]: with the raw reply, or
    with the reason of the rejection. *)
Definition settleSend (id : Z) (response : Completion string) : Event :=
  match response with
  | Normal raw => Reply id raw
  | Throw err => Reject id err
  end.

(** Every entry in flight is filed under the id of its message, and the
    caller inside [waitUntilReady] waits for the [Ready] action. *)
Definition filedByMessage (w : World) : Prop :=
  forall id entry,
    In (id, entry) (inFlight w) ->
    id = messageId (message entry) /\
    (forall cid, awaiting entry = FromWaitUntilReady cid -> message entry = Ready actions).

(** [response.params.errorDetails] *)
Definition errorDetailsOf (response : JsVal) : Completion JsVal :=
  p <- getProp response "params" ;; getProp p "errorDetails".
End EventLoop.

(** ** Reading the client's state *)

Section Observations.
Context `{Externals}.

(** The action behind a method whose body is [await this.sendAction(...)]
    and nothing else. *)
Definition plainAction (m : Method) : option Action :=
  match m with
  | m_reloadReactNative => Some (ReloadReactNative actions)
  | m_waitForBackground => Some (WaitForBackground actions)
  | m_waitForActive => Some (WaitForActive actions)
  | m_currentStatus => Some (CurrentStatus actions)
  | m_setSyncSettings params => Some (SetSyncSettings actions params)
  | m_shake => Some (Shake actions)
  | m_setOrientation orientation => Some (SetOrientation actions orientation)
  | m_startInstrumentsRecording recordingPath samplingInterval =>
      Some (SetInstrumentsRecordingState actions
              (JObj [("recordingPath", recordingPath);
                     ("samplingInterval", samplingInterval)]))
  | m_stopInstrumentsRecording =>
      Some (SetInstrumentsRecordingState actions JUndefined)
  | m_deliverPayload params => Some (DeliverPayload actions params)
  | m_connect _ | m_waitUntilReady | m_cleanup | m_execute _
  | m_getPendingCrashAndReset | m_setNonresponsivenessListener
  | m_dumpPendingRequests _ => None
  end.

(** The entry is awaited inside [execute]. *)
Definition awaitsExecute (entry : InFlight) : bool :=
  match awaiting entry with
  | FromExecute _ => true
  | _ => false
  end.

(** The entry is awaited by the timer callback of [slowInvocationStatus]. *)
Definition awaitsWatchdog (entry : InFlight) : bool :=
  match awaiting entry with
  | FromWatchdog => true
  | _ => false
  end.

(** The promise a caller hands to the test code rejects with [error] as it
    is, except inside [execute], which sanitizes it. *)
Definition rejectionSeenBy (k : Caller) (error : JsVal)
  : option (CallId * Completion JsVal) :=
  match k with
  | FromPlain cid | FromWaitUntilReady cid | FromCleanup cid =>
      Some (cid, Throw error)
  | FromExecute cid =>
      Some (cid, Throw (removeInternalStackEntries (asError error)))
  | FromWatchdog => None
  end.


(** The watchdog is switched off and has left no trace. *)
Definition watchdogIdle (w : World) : Prop :=
  truthy (slowInvocationTimeout (client w)) = false /\
  slowInvocationStatusHandler (client w) = None /\
  timers w = [] /\
  forall id entry, In (id, entry) (inFlight w) -> awaitsWatchdog entry = false.

(** The world once [action] has gone out and its send has settled with
    [response]: the message is on record as sent, a rejection is on record
    as such, and the entry has left the bookkeeping again. *)
Definition delivered (action : Action) (response : Completion string) (w : World)
  : World :=
  let w1 :=
    {| client := client w;
       timers := timers w;
       nextTimer := nextTimer w;
       sent := action :: sent w;
       rejected := rejected w;
       settled := settled w;
       warnings := warnings w;
       notified := notified w |} in
  match response with
  | Normal _ => w1
  | Throw err => note_rejected (messageId action) err w1
  end.

(** What [_.values(...).map(...).filter(...)] keeps of one entry. *)
Definition isStatusPoll (m : Action) : bool := String.eqb (type m) "currentStatus".
End Observations.

(** ** A concrete set of collaborators

    One implementation of the required modules, used to run the model on
    concrete scenarios.  Replies travel as [TYPE] or [TYPE DETAIL], standing
    for an object with that [type] whose [params] carry the detail as
    [result], [details] and [errorDetails]. *)
Module Demo.

Fixpoint splitAtSpace (s : string) : string * option string :=
  match s with
  | EmptyString => (EmptyString, None)
  | String c rest =>
      if Ascii.eqb c " "%char then (EmptyString, Some rest)
      else let (t, d) := splitAtSpace rest in (String c t, d)
  end.

Definition parse (raw : string) : Completion JsVal :=
  match splitAtSpace raw with
  | (EmptyString, _) => Throw (JStr "SyntaxError: Unexpected end of JSON input")
  | (t, None) => Normal (JObj [("type", JStr t); ("params", JObj [])])
  | (t, Some d) =>
      Normal (JObj [("type", JStr t);
                    ("params", JObj [("result", JStr d); ("details", JStr d);
                                     ("errorDetails", JStr d)])])
  end.

Definition stringify (v : JsVal) : string :=
  match v with
  | JUndefined => "undefined"
  | JNull => "null"
  | JBool true => "true"
  | JBool false => "false"
  | JNum n => showZ n
  | JStr s => (dquote ++ s ++ dquote)%string
  | JArr [] => "[]"
  | JArr (_ :: _) => "[...]"
  | JObj [] => "{}"
  | JObj (_ :: _) => "{...}"
  end.

Definition typeOf (response : JsVal) : string :=
  match response with
  | JObj fields => match assoc "type" fields with JStr t => t | _ => EmptyString end
  | _ => EmptyString
  end.

Definition param (k : string) (response : JsVal) : JsVal :=
  match response with
  | JObj fields => match assoc "params" fields with JObj ps => assoc k ps | _ => JUndefined end
  | _ => JUndefined
  end.

Definition expectResponseOfType (expected : string) (response : JsVal)
  : Completion JsVal :=
  if String.eqb (typeOf response) expected then Normal JUndefined
  else Throw (JStr ("was expecting " ++ expected)%string).

Definition handleInvoke (response : JsVal) : Completion JsVal :=
  if String.eqb (typeOf response) "testFailed" then Throw (param "details" response)
  else if String.eqb (typeOf response) "invokeResult" then Normal (param "result" response)
  else Normal JUndefined.

Definition simple (id : Z) (t : string) (p : JsVal) (expected : string) : Action :=
  {| messageId := id; type := t; params := p;
     handle := expectResponseOfType expected |}.

Definition catalogue : ActionCatalogue :=
  {| Login := fun sessionId =>
       simple 1 "login" (JObj [("sessionId", sessionId); ("role", JStr "tester")])
              "loginSuccess";
     ReloadReactNative := simple (-1000) "reactNativeReload" (JObj []) "ready";
     Ready := simple (-1000) "isReady" (JObj []) "ready";
     WaitForBackground := simple 2 "waitForBackground" (JObj []) "waitForBackgroundDone";
     WaitForActive := simple 3 "waitForActive" (JObj []) "waitForActiveDone";
     Cleanup := fun stopRunner =>
       simple 4 "cleanup" (JObj [("stopRunner", JBool stopRunner)]) "cleanupDone";
     CurrentStatus := simple 5 "currentStatus" (JObj []) "currentStatusResult";
     SetSyncSettings := fun p => simple 6 "setSyncSettings" p "setSyncSettingsDone";
     Shake := simple 7 "shakeDevice" (JObj []) "shakeDeviceDone";
     SetOrientation := fun p => simple 8 "setOrientation" p "setOrientationDone";
     SetInstrumentsRecordingState := fun p =>
       simple 9 "setRecordingState" p "setRecordingStateDone";
     DeliverPayload := fun p => simple 10 "deliverPayload" p "deliverPayloadDone";
     Invoke := fun p =>
       {| messageId := 11; type := "invoke"; params := p; handle := handleInvoke |};
     AppWillTerminateWithError :=
       simple (-10000) "AppWillTerminateWithError" (JObj []) "AppWillTerminateWithError";
     AppNonresponsive :=
       simple (-10001) "AppNonresponsiveDetected" (JObj []) "AppNonresponsiveDetected" |}.

(** [asError]: a thrown value that is not an object is wrapped. *)
Definition toError (err : JsVal) : JsVal :=
  match err with
  | JObj _ => err
  | _ => JObj [("message", err);
               ("stack", JArr [JStr "at Client.execute (detox/src/client/Client.js)";
                               JStr "at test (e2e/example.spec.js)"])]
  end.

Definition internal (line : JsVal) : bool :=
  match line with
  | JStr "at Client.execute (detox/src/client/Client.js)" => true
  | _ => false
  end.

Definition stripStack (kv : string * JsVal) : string * JsVal :=
  match kv with
  | (k, JArr lines) =>
      if String.eqb k "stack" then (k, JArr (filter (fun l => negb (internal l)) lines))
      else kv
  | _ => kv
  end.

(** [removeInternalStackEntries]: the stack loses the frames of the client. *)
Definition sanitize (err : JsVal) : JsVal :=
  match err with
  | JObj fields => JObj (map stripStack fields)
  | _ => err
  end.

#[export] Instance externals : Externals :=
  {| actions := catalogue;
     debugSynchronization := JNum 500;
     JSON_parse := parse;
     JSON_stringify := stringify;
     asError := toError;
     removeInternalStackEntries := sanitize;
     typeError := JStr "TypeError: Cannot read properties of undefined" |}.

Definition config : Config :=
  {| server := JStr "ws://localhost:8099"; sessionId := JStr "session-1" |}.

(** A connected client: [connect()], the login reply, [waitUntilReady()],
    the ready reply. *)
Definition connected : World :=
  run [Call 0%nat (m_connect (Normal tt)); Reply 1 "loginSuccess";
       Call 1%nat m_waitUntilReady; Reply (-1000) "ready"]
      (new_Client config).

(** The app has crashed under a connected client. *)
Definition crashed : World :=
  step (Notice (-10000) "AppWillTerminateWithError boom") connected.

(** A login, an invocation and a status query of the watchdog are in
    flight, none answered. *)
Definition busy : World :=
  run [Call 0%nat (m_connect (Normal tt));
       Call 1%nat (m_execute (Value (JStr "tap")));
       TimerFires 0%nat]
      (new_Client config).

(** Only a status query is in flight. *)
Definition polling : World := step (Call 2%nat m_currentStatus) connected.

(** An invocation is in flight and its watchdog is armed. *)
Definition invoking : World :=
  step (Call 2%nat (m_execute (Value (JStr "tap")))) connected.

(** [cleanup()] has sent its action and waits for the reply. *)
Definition cleaning : World := step (Call 2%nat m_cleanup) connected.

(** The same collaborators with [debug-synchronization] unset. *)
Definition quiet : Externals :=
  {| actions := catalogue;
     debugSynchronization := JUndefined;
     JSON_parse := parse;
     JSON_stringify := stringify;
     asError := toError;
     removeInternalStackEntries := sanitize;
     typeError := JStr "TypeError: Cannot read properties of undefined" |}.

(** The invocation has failed. *)
Definition failedRun : World := step (Reply 11 "testFailed boom") invoking.

(** A connected client whose test code listens for nonresponsiveness. *)
Definition listening : World :=
  step (Call 5%nat m_setNonresponsivenessListener) connected.
End Demo.

(** * Properties *)

Section Frames.
Context `{Externals}.

(** ** What the building blocks leave alone *)

Lemma disarm_client w : client (disarm w) = client w.
Proof. unfold disarm, clearTimeout. destruct (slowInvocationStatusHandler _); reflexivity. Qed.

Lemma disarm_sent w : sent (disarm w) = sent w.
Proof. unfold disarm, clearTimeout. destruct (slowInvocationStatusHandler _); reflexivity. Qed.

Lemma disarm_settled w : settled (disarm w) = settled w.
Proof. unfold disarm, clearTimeout. destruct (slowInvocationStatusHandler _); reflexivity. Qed.

Lemma cleanup_close_closed cid w : ws_isOpen (cleanup_close cid w) = false.
Proof.
  unfold cleanup_close. destruct (ws_isOpen w) eqn:E; simpl; [reflexivity | exact E].
Qed.

Lemma cleanup_close_settled cid w :
  settled (cleanup_close cid w) = (cid, Normal JUndefined) :: settled w.
Proof. unfold cleanup_close. destruct (ws_isOpen w); reflexivity. Qed.

Lemma cleanup_close_isConnected cid w :
  isConnected (client (cleanup_close cid w)) = isConnected (client w).
Proof. unfold cleanup_close. destruct (ws_isOpen w); reflexivity. Qed.

Lemma pendingMessages_only_status w :
  (forall id entry, In (id, entry) (inFlight w) ->
                    type (message entry) = "currentStatus") ->
  pendingMessages w = [].
Proof.
  unfold pendingMessages, obj_values.
  induction (inFlight w) as [|[id entry] rest IH]; intros Hall; simpl.
  - reflexivity.
  - rewrite (Hall id entry (or_introl eq_refl)). simpl.
    apply IH. intros id' entry' Hin. apply (Hall id' entry'). right. exact Hin.
Qed.

(** ** The in-flight object *)

Lemma obj_get_replace (V : Type) (k : Z) (v : V) (o : list (Z * V)) :
  obj_get k o <> None -> obj_get k (obj_replace k v o) = Some v.
Proof.
  induction o as [|[k' v'] rest IH]; simpl; intros Hsome.
  - contradiction.
  - destruct (k =? k') eqn:E; simpl; rewrite E; [reflexivity | exact (IH Hsome)].
Qed.

Lemma obj_get_insert_index (V : Type) (k : Z) (v : V) (o : list (Z * V)) :
  obj_get k o = None -> obj_get k (obj_insert_index k v o) = Some v.
Proof.
  induction o as [|[k' v'] rest IH]; simpl; intros Hnone.
  - rewrite Z.eqb_refl. reflexivity.
  - destruct (k =? k') eqn:E; [discriminate Hnone|].
    destruct (isArrayIndex k' && (k' <? k)); simpl.
    + rewrite E. exact (IH Hnone).
    + rewrite Z.eqb_refl. reflexivity.
Qed.

Lemma obj_get_append (V : Type) (k : Z) (v : V) (o : list (Z * V)) :
  obj_get k o = None -> obj_get k (o ++ [(k, v)]) = Some v.
Proof.
  induction o as [|[k' v'] rest IH]; simpl; intros Hnone.
  - rewrite Z.eqb_refl. reflexivity.
  - destruct (k =? k') eqn:E; [discriminate Hnone | exact (IH Hnone)].
Qed.

Lemma obj_get_set (V : Type) (k : Z) (v : V) (o : list (Z * V)) :
  obj_get k (obj_set k v o) = Some v.
Proof.
  unfold obj_set. destruct (obj_get k o) eqn:E.
  - apply obj_get_replace. rewrite E. discriminate.
  - destruct (isArrayIndex k).
    + apply obj_get_insert_index. exact E.
    + apply obj_get_append. exact E.
Qed.

(** ** Sending and settling *)

Lemma sendAction_sent action k w : sent (sendAction action k w) = action :: sent w.
Proof. reflexivity. Qed.

Lemma sendAction_inFlight action k w :
  obj_get (messageId action) (inFlight (sendAction action k w))
  = Some {| message := action; awaiting := k |}.
Proof. unfold sendAction, ws_send, inFlight. simpl. apply obj_get_set. Qed.

(** The world in which the caller resumes: the entry has left the
    bookkeeping, and a rejection is on record. *)
Lemma step_settleSend id response entry w :
  obj_get id (inFlight w) = Some entry ->
  step (settleSend id response) w
  = resume entry response
      (match response with
       | Normal _ => ws_forget id w
       | Throw err => note_rejected id err (ws_forget id w)
       end).
Proof. intros Hget. destruct response; simpl; rewrite Hget; reflexivity. Qed.

Lemma interpret_Throw action e : interpret action (Throw e) = Throw e.
Proof. reflexivity. Qed.

(** What the caller inside [cleanup] does with the outcome of its send. *)
Lemma resume_cleanup entry cid response w :
  awaiting entry = FromCleanup cid ->
  match interpret (message entry) response with
  | Normal _ =>
      isConnected (client (resume entry response w)) = false /\
      settled (resume entry response w) = (cid, Normal JUndefined) :: settled w /\
      ws_isOpen (resume entry response w) = false
  | Throw e =>
      resume entry response w = settle cid (Throw e) w
  end.
Proof.
  intros Hk. unfold resume. rewrite Hk.
  destruct (interpret (message entry) response).
  - rewrite cleanup_close_isConnected, cleanup_close_settled, cleanup_close_closed.
    repeat split.
  - reflexivity.
Qed.

(** What the caller inside [execute] does with the outcome of its send. *)
Lemma resume_execute entry cid response w :
  awaiting entry = FromExecute cid ->
  match interpret (message entry) response with
  | Normal v =>
      resume entry response w = settle cid (Normal v) (disarm w)
  | Throw err =>
      resume entry response w
      = settle cid (Throw (removeInternalStackEntries (asError err)))
          (disarm (on_client (set_successfulTestRun false) w))
  end.
Proof.
  intros Hk. unfold resume. rewrite Hk.
  destruct (interpret (message entry) response); reflexivity.
Qed.

(** ** A send that fails *)

Ltac open_resume :=
  unfold resume, cleanup_close, arm, disarm, clearTimeout, slowInvocationStatus,
    setTimeout, ws_close, settle, on_ws, on_client, set_client, ws_isOpen, inFlight;
  simpl.

Ltac break_match :=
  match goal with
  | |- context [match ?x with _ => _ end] => destruct x eqn:?; simpl
  end.

(** Resuming never writes [pandingAppCrash], whatever the outcome. *)
Lemma resume_pandingAppCrash entry response w :
  pandingAppCrash (client (resume entry response w)) = pandingAppCrash (client w).
Proof. open_resume. repeat break_match; reflexivity. Qed.

(** A caller resumed with a rejection sends nothing, leaves the transport
    alone, and does not touch the connected flag. *)
Lemma resume_Throw_ws entry e w :
  ws (client (resume entry (Throw e) w)) = ws (client w).
Proof. open_resume. repeat break_match; reflexivity. Qed.

Lemma resume_Throw_isConnected entry e w :
  isConnected (client (resume entry (Throw e) w)) = isConnected (client w).
Proof. open_resume. repeat break_match; reflexivity. Qed.

Lemma resume_Throw_rejected entry e w :
  rejected (resume entry (Throw e) w) = rejected w.
Proof. open_resume. repeat break_match; reflexivity. Qed.



Lemma resume_settled_grows entry response w x :
  In x (settled w) -> In x (settled (resume entry response w)).
Proof.
  open_resume. intros Hin.
  repeat break_match; try exact Hin; try (right; exact Hin).
Qed.

(** *** [rejectAll]: one rejected caller after the other *)

Lemma rejectEach_ws error pending w :
  ws (client (rejectEach error pending w)) = ws (client w).
Proof.
  revert w. induction pending as [|[id entry] rest IH]; intros w; simpl.
  - reflexivity.
  - rewrite IH, resume_Throw_ws. reflexivity.
Qed.

Lemma rejectEach_pandingAppCrash error pending w :
  pandingAppCrash (client (rejectEach error pending w)) = pandingAppCrash (client w).
Proof.
  revert w. induction pending as [|[id entry] rest IH]; intros w; simpl.
  - reflexivity.
  - rewrite IH, resume_pandingAppCrash. reflexivity.
Qed.

Lemma rejectEach_isConnected error pending w :
  isConnected (client (rejectEach error pending w)) = isConnected (client w).
Proof.
  revert w. induction pending as [|[id entry] rest IH]; intros w; simpl.
  - reflexivity.
  - rewrite IH, resume_Throw_isConnected. reflexivity.
Qed.

Lemma rejectEach_rejected_grows error pending w x :
  In x (rejected w) -> In x (rejected (rejectEach error pending w)).
Proof.
  revert w. induction pending as [|[id entry] rest IH]; intros w Hin; simpl.
  - exact Hin.
  - apply IH. rewrite resume_Throw_rejected. right. exact Hin.
Qed.

Lemma rejectEach_rejects_all error pending w id entry :
  In (id, entry) pending ->
  In (id, error) (rejected (rejectEach error pending w)).
Proof.
  revert w. induction pending as [|[id' entry'] rest IH]; intros w Hin; simpl.
  - contradiction.
  - destruct Hin as [Heq | Hin].
    + inversion Heq; subst. apply rejectEach_rejected_grows.
      rewrite resume_Throw_rejected. left. reflexivity.
    + apply IH. exact Hin.
Qed.


Lemma rejectEach_settled_grows error pending w x :
  In x (settled w) -> In x (settled (rejectEach error pending w)).
Proof.
  revert w. induction pending as [|[id entry] rest IH]; intros w Hin; simpl.
  - exact Hin.
  - apply IH. apply resume_settled_grows. exact Hin.
Qed.


(** ** Whole steps *)

Ltac open_call :=
  unfold call, cleanup, execute, dumpPendingRequests, cleanup_close, arm, disarm,
    clearTimeout, slowInvocationStatus, setTimeout, sendAction, ws_send, ws_open,
    ws_close, ws_resetInFlightPromises, warn, settle, on_ws, on_client, set_client,
    ws_isOpen, inFlight;
  simpl.

(** Only [getPendingCrashAndReset] among the methods writes
    [pandingAppCrash]. *)
Lemma call_pandingAppCrash cid m w :
  isCrashPoll (Call cid m) = false ->
  pandingAppCrash (client (call cid m w)) = pandingAppCrash (client w).
Proof.
  intros Hm. destruct m; try discriminate Hm; open_call;
    repeat break_match; reflexivity.
Qed.

(** No method call sets [isConnected] to true. *)
Lemma call_isConnected cid m w :
  isConnected (client (call cid m w)) = true -> isConnected (client w) = true.
Proof.
  destruct m; open_call; repeat break_match; simpl; intros Ht;
    try exact Ht; try discriminate Ht.
  all: match goal with
       | E : (?a && _)%bool = _ |- ?a = true =>
           destruct a; [reflexivity | discriminate Ht]
       | _ => idtac
       end.
Qed.

Lemma fire_client_fields h w :
  pandingAppCrash (client (fire h w)) = pandingAppCrash (client w) /\
  isConnected (client (fire h w)) = isConnected (client w).
Proof.
  unfold fire, sendAction, ws_send, clearTimeout, on_ws, on_client, set_client,
    ws_isOpen. simpl.
  repeat break_match; split; reflexivity.
Qed.

(** A step that is neither a crash notice nor a poll for the crash leaves
    [pandingAppCrash] as it is. *)
Lemma step_pandingAppCrash e w :
  deliversCrash e w = false ->
  isCrashPoll e = false ->
  pandingAppCrash (client (step e w)) = pandingAppCrash (client w).
Proof.
  intros Hcrash Hpoll. destruct e as [cid m | id raw | id err | id raw | h |].
  - apply call_pandingAppCrash. exact Hpoll.
  - simpl. destruct (obj_get id (inFlight w)); [|reflexivity].
    rewrite resume_pandingAppCrash. reflexivity.
  - simpl. destruct (obj_get id (inFlight w)); [|reflexivity].
    rewrite resume_pandingAppCrash. reflexivity.
  - simpl in *. destruct (obj_get id (eventCallbacks (ws (client w))))
      as [[action [|]]|]; try reflexivity.
    + unfold actionListener.
      destruct (JSON_parse raw) as [parsed|]; simpl in *; [|reflexivity].
      destruct (handle action parsed); simpl in *; [discriminate Hcrash | reflexivity].
    + unfold actionListener, nonresponsivenessListener.
      destruct (JSON_parse raw) as [parsed|]; simpl; [|reflexivity].
      destruct (handle action parsed); simpl; [|reflexivity].
      destruct (getProp parsed "params"); reflexivity.
  - apply fire_client_fields.
  - reflexivity.
Qed.

(** A poll for the crash leaves the field [undefined]. *)
Lemma step_stays_undefined e w :
  deliversCrash e w = false ->
  pandingAppCrash (client w) = JUndefined ->
  pandingAppCrash (client (step e w)) = JUndefined.
Proof.
  intros Hcrash Hu. destruct (isCrashPoll e) eqn:Hpoll.
  - destruct e as [cid m | | | | |]; try discriminate Hpoll.
    destruct m; try discriminate Hpoll. reflexivity.
  - rewrite step_pandingAppCrash; assumption.
Qed.

Lemma run_cons e events w : run (e :: events) w = run events (step e w).
Proof. reflexivity. Qed.

Lemma run_stays_undefined events w :
  crashFree events w = true ->
  pandingAppCrash (client w) = JUndefined ->
  pandingAppCrash (client (run events w)) = JUndefined.
Proof.
  revert w. induction events as [|e rest IH]; intros w Hfree Hu.
  - exact Hu.
  - simpl in Hfree. apply andb_prop in Hfree. destruct Hfree as [He Hrest].
    rewrite run_cons. apply IH; [exact Hrest|].
    apply step_stays_undefined; [|exact Hu].
    destruct (deliversCrash e w); [discriminate He | reflexivity].
Qed.

Lemma run_keeps_crash events w :
  crashFree events w = true ->
  forallb (fun e => negb (isCrashPoll e)) events = true ->
  pandingAppCrash (client (run events w)) = pandingAppCrash (client w).
Proof.
  revert w. induction events as [|e rest IH]; intros w Hfree Hpoll.
  - reflexivity.
  - simpl in Hfree, Hpoll.
    apply andb_prop in Hfree. destruct Hfree as [He Hrest].
    apply andb_prop in Hpoll. destruct Hpoll as [Hp Hprest].
    rewrite run_cons, IH by assumption.
    apply step_pandingAppCrash.
    + destruct (deliversCrash e w); [discriminate He | reflexivity].
    + destruct (isCrashPoll e); [discriminate Hp | reflexivity].
Qed.

(** The crash listener, when the notice carries [errorDetails]. *)
Lemma crashListener_spec response d w :
  errorDetailsOf response = Normal d ->
  crashListener response w
  = rejectEach d (inFlight w)
      (ws_resetInFlightPromises (on_client (set_pandingAppCrash d) w)).
Proof.
  unfold errorDetailsOf, crashListener. intros Hd. rewrite Hd. reflexivity.
Qed.

(** ** The dump *)

Lemma Permutation_filter (A : Type) (f : A -> bool) (l l' : list A) :
  Permutation l l' -> Permutation (filter f l) (filter f l').
Proof.
  induction 1 as [| x l l' _ IH | x y l | l l' l'' _ IH1 _ IH2]; simpl.
  - constructor.
  - destruct (f x); [constructor|]; exact IH.
  - destruct (f x), (f y); try apply Permutation_refl. constructor.
  - exact (Permutation_trans IH1 IH2).
Qed.

Lemma notice_runs_crashListener id raw action parsed v w :
  obj_get id (eventCallbacks (ws (client w))) = Some (action, CrashCallback) ->
  JSON_parse raw = Normal parsed ->
  handle action parsed = Normal v ->
  step (Notice id raw) w = crashListener parsed w.
Proof.
  intros Hcb Hparse Hhandle. simpl. rewrite Hcb. unfold actionListener.
  rewrite Hparse. simpl. rewrite Hhandle. reflexivity.
Qed.

(** [cleanup()] on a connected client with no crash pending and an open
    channel: the watchdog is disarmed and the cleanup action goes out. *)
Lemma cleanup_sends cid w :
  isConnected (client w) = true ->
  truthy (pandingAppCrash (client w)) = false ->
  ws_isOpen w = true ->
  cleanup cid w
  = sendAction (Cleanup actions (successfulTestRun (client w))) (FromCleanup cid)
      (disarm w).
Proof.
  intros Hconn Hcrash Hopen. unfold cleanup.
  rewrite disarm_client.
  replace (ws_isOpen (disarm w)) with (ws_isOpen w)
    by (unfold ws_isOpen; rewrite disarm_client; reflexivity).
  rewrite Hconn, Hcrash, Hopen. reflexivity.
Qed.

(** ** What is in flight in a world the client can reach *)

Lemma obj_get_In (V : Type) (k : Z) (v : V) (o : list (Z * V)) :
  obj_get k o = Some v -> In (k, v) o.
Proof.
  induction o as [|[k' v'] rest IH]; simpl; intros Hget.
  - discriminate Hget.
  - destruct (k =? k') eqn:E.
    + apply Z.eqb_eq in E. subst k'. injection Hget as ->. left. reflexivity.
    + right. exact (IH Hget).
Qed.

Lemma In_obj_replace (V : Type) (k : Z) (v : V) (o : list (Z * V)) x :
  In x (obj_replace k v o) -> x = (k, v) \/ In x o.
Proof.
  induction o as [|[k' v'] rest IH]; simpl; intros Hin.
  - contradiction.
  - destruct (k =? k') eqn:E; simpl in Hin.
    + apply Z.eqb_eq in E. subst k'. destruct Hin as [<- | Hin]; auto.
    + destruct Hin as [<- | Hin]; auto. destruct (IH Hin); auto.
Qed.

Lemma In_obj_insert_index (V : Type) (k : Z) (v : V) (o : list (Z * V)) x :
  In x (obj_insert_index k v o) -> x = (k, v) \/ In x o.
Proof.
  induction o as [|[k' v'] rest IH]; simpl; intros Hin.
  - destruct Hin as [<- | []]. auto.
  - destruct (isArrayIndex k' && (k' <? k)); simpl in Hin.
    + destruct Hin as [<- | Hin]; auto. destruct (IH Hin); auto.
    + destruct Hin as [<- | Hin]; auto.
Qed.

Lemma In_obj_set (V : Type) (k : Z) (v : V) (o : list (Z * V)) x :
  In x (obj_set k v o) -> x = (k, v) \/ In x o.
Proof.
  unfold obj_set. destruct (obj_get k o).
  - apply In_obj_replace.
  - destruct (isArrayIndex k).
    + apply In_obj_insert_index.
    + intros Hin. apply in_app_or in Hin. destruct Hin as [Hin | [<- | []]]; auto.
Qed.

Lemma In_obj_delete (V : Type) (k : Z) (o : list (Z * V)) x :
  In x (obj_delete k o) -> In x o.
Proof.
  induction o as [|[k' v'] rest IH]; simpl; intros Hin.
  - contradiction.
  - destruct (k =? k'); simpl in Hin; auto. destruct Hin as [<- | Hin]; auto.
Qed.

Lemma filedByMessage_shrinks w w' :
  (forall x, In x (inFlight w') -> In x (inFlight w)) ->
  filedByMessage w -> filedByMessage w'.
Proof. intros Hsub Hinv id entry Hin. apply Hinv, Hsub, Hin. Qed.

Lemma filedByMessage_sendAction action k w :
  (forall cid, k = FromWaitUntilReady cid -> action = Ready actions) ->
  filedByMessage w -> filedByMessage (sendAction action k w).
Proof.
  intros Hk Hinv id entry Hin.
  unfold sendAction, ws_send, inFlight in Hin. simpl in Hin.
  apply In_obj_set in Hin. destruct Hin as [Heq | Hin].
  - injection Heq as -> ->. simpl. split; [reflexivity | exact Hk].
  - apply Hinv. exact Hin.
Qed.

Lemma resume_inFlight entry response w :
  inFlight (resume entry response w) = inFlight w.
Proof. open_resume. repeat break_match; reflexivity. Qed.

Lemma rejectEach_inFlight error pending w :
  inFlight (rejectEach error pending w) = inFlight w.
Proof. unfold inFlight. rewrite rejectEach_ws. reflexivity. Qed.

Lemma disarm_inFlight w : inFlight (disarm w) = inFlight w.
Proof. unfold inFlight. rewrite disarm_client. reflexivity. Qed.

Lemma filedByMessage_call cid m w :
  filedByMessage w -> filedByMessage (call cid m w).
Proof.
  intros Hinv.
  assert (Hplain : forall action c w0,
             filedByMessage w0 -> filedByMessage (sendAction action (FromPlain c) w0))
    by (intros; apply filedByMessage_sendAction; [discriminate | assumption]).
  destruct m; simpl; try (apply Hplain; exact Hinv).
  - destruct opening; [apply Hplain|]; exact Hinv.
  - apply filedByMessage_sendAction; [reflexivity | exact Hinv].
  - unfold cleanup.
    assert (Hd : filedByMessage (disarm w))
      by (apply filedByMessage_shrinks with (w := w);
          [rewrite disarm_inFlight; auto | exact Hinv]).
    destruct (isConnected (client (disarm w))
              && negb (truthy (pandingAppCrash (client (disarm w))))).
    + destruct (ws_isOpen (disarm w)).
      * apply filedByMessage_sendAction; [discriminate | exact Hd].
      * unfold cleanup_close. destruct (ws_isOpen _); exact Hd.
    + unfold cleanup_close. destruct (ws_isOpen _); exact Hd.
  - unfold execute.
    destruct (match invocation with Value v => Normal v | Producer r => r end);
      [|exact Hinv].
    apply filedByMessage_sendAction; [discriminate|].
    destruct (truthy _); exact Hinv.
  - exact Hinv.
  - exact Hinv.
  - unfold dumpPendingRequests. destruct (pendingMessages w); [exact Hinv|].
    intros id entry [].
Qed.

Lemma filedByMessage_step e w :
  filedByMessage w -> filedByMessage (step e w).
Proof.
  intros Hinv. destruct e as [cid m | id raw | id err | id raw | h |]; simpl.
  - apply filedByMessage_call. exact Hinv.
  - destruct (obj_get id (inFlight w)); [|exact Hinv].
    apply filedByMessage_shrinks with (w := w); [|exact Hinv].
    intros x. rewrite resume_inFlight. apply In_obj_delete.
  - destruct (obj_get id (inFlight w)); [|exact Hinv].
    apply filedByMessage_shrinks with (w := w); [|exact Hinv].
    intros x. rewrite resume_inFlight. apply In_obj_delete.
  - destruct (obj_get id (eventCallbacks (ws (client w)))) as [[action cb]|];
      [|exact Hinv].
    unfold actionListener.
    destruct (JSON_parse raw) as [parsed|]; simpl; [|exact Hinv].
    destruct (handle action parsed); simpl; [|exact Hinv].
    destruct cb.
    + unfold crashListener, ws_rejectAll.
      destruct (p <- getProp parsed "params";; getProp p "errorDetails");
        [|exact Hinv].
      intros i entry Hin. rewrite rejectEach_inFlight in Hin. destruct Hin.
    + unfold nonresponsivenessListener.
      destruct (getProp parsed "params"); exact Hinv.
  - unfold fire. destruct (existsb _ _); [|exact Hinv].
    destruct (ws_isOpen _); [apply filedByMessage_sendAction; [discriminate|]|];
      exact Hinv.
  - exact Hinv.
Qed.

Lemma filedByMessage_run events w :
  filedByMessage w -> filedByMessage (run events w).
Proof.
  revert w. induction events as [|e rest IH]; intros w Hinv; [exact Hinv|].
  rewrite run_cons. apply IH, filedByMessage_step, Hinv.
Qed.

Lemma filedByMessage_new config : filedByMessage (new_Client config).
Proof. intros id entry []. Qed.

(** A step turns [isConnected] from false to true only as the reply that
    [waitUntilReady] waits for, accepted by its action. *)
Lemma connects_only_on_ready_reply (e : Event) (w : World) :
  isConnected (client w) = false ->
  isConnected (client (step e w)) = true ->
  exists id raw entry cid v,
    e = Reply id raw /\
    obj_get id (inFlight w) = Some entry /\
    awaiting entry = FromWaitUntilReady cid /\
    interpret (message entry) (Normal raw) = Normal v /\
    settled (step e w) = (cid, Normal JUndefined) :: settled w.
Proof.
  intros Hf Ht.
    destruct e as [cid m | id raw | id err | id raw | h |].
  - apply call_isConnected in Ht. congruence.
  - simpl in *. destruct (obj_get id (inFlight w)) as [entry|] eqn:Hget;
        [|congruence].
      exists id, raw, entry.
      revert Ht. unfold resume.
      destruct (awaiting entry) as [c|c|c|c|] eqn:Hk;
        destruct (interpret (message entry) (Normal raw)) as [v|err'] eqn:Hi;
        intros Ht; unfold settle in Ht; cbn [client isConnected] in Ht;
        rewrite ?cleanup_close_isConnected, ?disarm_client in Ht;
        unfold arm in Ht; simpl in Ht; try congruence.
      exists c, v. repeat split; assumption.
  - simpl in Ht. destruct (obj_get id (inFlight w)) as [entry|]; [|congruence].
      rewrite resume_Throw_isConnected in Ht. simpl in Ht. congruence.
  - simpl in Ht.
      destruct (obj_get id (eventCallbacks (ws (client w)))) as [[action cb]|];
        [|congruence].
      unfold actionListener in Ht.
      destruct (JSON_parse raw) as [parsed|]; simpl in Ht; [|congruence].
      destruct (handle action parsed); simpl in Ht; [|congruence].
      destruct cb.
    + unfold crashListener, ws_rejectAll in Ht.
        destruct (p <- getProp parsed "params";; getProp p "errorDetails");
          [|congruence].
        rewrite rejectEach_isConnected in Ht. simpl in Ht. congruence.
    + unfold nonresponsivenessListener in Ht.
        destruct (getProp parsed "params"); simpl in Ht; congruence.
  - destruct (fire_client_fields h w) as [_ Hc]. simpl in Ht. congruence.
  - simpl in Ht. congruence.
Qed.

Lemma connects_only_on_ready_reply_reachable (config : Config)
  (events : list Event) (e : Event) :
  let w := run events (new_Client config) in
  isConnected (client w) = false ->
  isConnected (client (step e w)) = true ->
  exists raw cid v,
    e = Reply (messageId (Ready actions)) raw /\
    obj_get (messageId (Ready actions)) (inFlight w)
    = Some {| message := Ready actions; awaiting := FromWaitUntilReady cid |} /\
    interpret (Ready actions) (Normal raw) = Normal v /\
    settled (step e w) = (cid, Normal JUndefined) :: settled w.
Proof.
  intros w Hf Ht.
  destruct (connects_only_on_ready_reply e w Hf Ht)
    as (id & raw & entry & cid & v & He & Hget & Hk & Hi & Hs).
  assert (Hinv : filedByMessage w)
    by (apply filedByMessage_run, filedByMessage_new).
  destruct (Hinv id entry (obj_get_In _ _ Hget)) as [Hid Hready].
  specialize (Hready cid Hk).
  destruct entry as [msg k]. simpl in *. subst msg k id.
  exists raw, cid, v. repeat split; assumption.
Qed.

(** X1.  When the caller inside [execute] resumes, with a result or with an
    error, the timer whose handle is stored in [slowInvocationStatusHandler]
    is no longer scheduled. *)
Lemma resume_execute_clears_stored_timer entry cid response w h :
  awaiting entry = FromExecute cid ->
  slowInvocationStatusHandler (client w) = Some h ->
  ~ In h (timers (resume entry response w)).
Proof.
  intros Hk Hh. pose proof (resume_execute entry response w Hk) as Hres.
  destruct (interpret (message entry) response); rewrite Hres; simpl;
    unfold disarm; simpl; rewrite Hh; simpl;
    intros Hin; apply filter_In in Hin; destruct Hin as [_ Hneq];
    rewrite Nat.eqb_refl in Hneq; discriminate Hneq.
Qed.
End Frames.

Section Claims.
Context `{Externals}.

(** C9. [getPendingCrashAndReset()] writes the [pandingAppCrash] field and
    nothing else: the connected flag, the run-success flag, the watchdog
    handle and its timers, the configuration and the whole transport are as
    before, and nothing is sent, rejected or logged. *)
Theorem getPendingCrashAndReset_frame (cid : CallId) (w : World) :
  let w' := step (Call cid m_getPendingCrashAndReset) w in
  client w' = set_pandingAppCrash JUndefined (client w) /\
  isConnected (client w') = isConnected (client w) /\
  successfulTestRun (client w') = successfulTestRun (client w) /\
  slowInvocationStatusHandler (client w') = slowInvocationStatusHandler (client w) /\
  slowInvocationTimeout (client w') = slowInvocationTimeout (client w) /\
  configuration (client w') = configuration (client w) /\
  ws (client w') = ws (client w) /\
  timers w' = timers w /\
  nextTimer w' = nextTimer w /\
  sent w' = sent w /\
  rejected w' = rejected w /\
  warnings w' = warnings w /\
  notified w' = notified w /\
  settled w' = (cid, Normal (pandingAppCrash (client w))) :: settled w.
Proof. simpl. repeat split. Qed.

(** C10. When every in-flight entry is a [currentStatus] request,
    [dumpPendingRequests] returns at once: no warning is emitted and the
    transport's in-flight bookkeeping is not cleared, the status entries
    stay in flight. *)
Theorem dumpPendingRequests_only_status (testName : option string) (w : World) :
  (forall id entry, In (id, entry) (inFlight w) ->
                    type (message entry) = "currentStatus") ->
  dumpPendingRequests testName w = w /\
  warnings (dumpPendingRequests testName w) = warnings w /\
  inFlight (dumpPendingRequests testName w) = inFlight w.
Proof.
  intros Hall.
  assert (E : dumpPendingRequests testName w = w).
  { unfold dumpPendingRequests. rewrite (pendingMessages_only_status w Hall). reflexivity. }
  rewrite E. repeat split.
Qed.

(** C4. When the channel is already closed, or a crash is pending (the
    field is truthy, which is what [cleanup] tests), or the client is not
    connected, [cleanup()] returns normally without suspending, sends no
    cleanup action (nothing at all is sent), and leaves the channel
    closed. *)
Theorem cleanup_tolerates_unusable_states (cid : CallId) (w : World) :
  ws_isOpen w = false \/
  truthy (pandingAppCrash (client w)) = true \/
  isConnected (client w) = false ->
  let w' := step (Call cid m_cleanup) w in
  settled w' = (cid, Normal JUndefined) :: settled w /\
  sent w' = sent w /\
  inFlight w' = inFlight w /\
  ws_isOpen w' = false.
Proof.
  intros Hcase. simpl.
  unfold cleanup, cleanup_close, disarm, clearTimeout, ws_isOpen, inFlight in *.
  destruct w as [[conn cfg [o fl cbs] h t ok crash] ts nt se rj st wa no].
  simpl in *.
  destruct h; simpl; destruct conn, (truthy crash), o; simpl;
    try (destruct Hcase as [Hc | [Hc | Hc]]; discriminate Hc);
    repeat split.
Qed.

(** C3, as the code has it.  With the client connected, no crash pending
    and the channel open, [cleanup()] sends the cleanup action built from
    [successfulTestRun] and waits for the reply, still connected.  When
    that send succeeds, [isConnected] becomes false, the channel is closed
    and [cleanup] returns; when it fails, [cleanup] rejects with the
    failure and [isConnected] and the channel stay as they were. *)
Theorem cleanup_sends_and_disconnects_on_success (cid : CallId) (w : World) :
  isConnected (client w) = true ->
  truthy (pandingAppCrash (client w)) = false ->
  ws_isOpen w = true ->
  let action := Cleanup actions (successfulTestRun (client w)) in
  let entry := {| message := action; awaiting := FromCleanup cid |} in
  let w1 := step (Call cid m_cleanup) w in
  sent w1 = action :: sent w /\
  obj_get (messageId action) (inFlight w1) = Some entry /\
  settled w1 = settled w /\
  isConnected (client w1) = true /\
  forall (w2 : World) (response : Completion string),
    obj_get (messageId action) (inFlight w2) = Some entry ->
    let w3 := step (settleSend (messageId action) response) w2 in
    match interpret action response with
    | Normal _ =>
        isConnected (client w3) = false /\
        settled w3 = (cid, Normal JUndefined) :: settled w2 /\
        ws_isOpen w3 = false
    | Throw e =>
        isConnected (client w3) = isConnected (client w2) /\
        settled w3 = (cid, Throw e) :: settled w2 /\
        ws_isOpen w3 = ws_isOpen w2
    end.
Proof.
  intros Hconn Hcrash Hopen action entry w1.
  assert (Hw1 : w1 = sendAction action (FromCleanup cid) (disarm w))
    by (apply cleanup_sends; assumption).
  rewrite Hw1. repeat split.
  - rewrite sendAction_sent, disarm_sent. reflexivity.
  - apply sendAction_inFlight.
  - simpl. apply disarm_settled.
  - simpl. rewrite disarm_client. exact Hconn.
  - intros w2 response Hget w3. unfold w3.
    rewrite step_settleSend with (entry := entry) by exact Hget.
    pose proof (resume_cleanup entry (cid := cid) response
                  (match response with
                   | Normal _ => ws_forget (messageId action) w2
                   | Throw err => note_rejected (messageId action) err
                                    (ws_forget (messageId action) w2)
                   end) eq_refl) as Hres.
    simpl message in Hres.
    destruct (interpret action response) as [v|e].
    + destruct Hres as (Hc & Hs & Ho). rewrite Hc, Hs, Ho.
      destruct response; repeat split.
    + rewrite Hres. destruct response; repeat split.
Qed.

(** C1.  A crash notice reaches the crash listener the constructor has
    registered: it parses, the action accepts it, and it carries
    [params.errorDetails].  Then every promise that was pending in the
    transport is rejected with that detail and nothing is left in flight.
    The detail stays in [pandingAppCrash] until it is polled: the first
    [getPendingCrashAndReset()] after the crash returns it, and every poll
    after that returns [undefined], for as long as no further crash notice
    arrives. *)
Theorem crash_is_broadcast_and_reported_once
  (id : Z) (raw : string) (response d : JsVal) (w : World) :
  deliversCrash (Notice id raw) w = true ->
  JSON_parse raw = Normal response ->
  errorDetailsOf response = Normal d ->
  let w' := step (Notice id raw) w in
  w' = crashListener response w /\
  (forall id' entry, In (id', entry) (inFlight w) -> In (id', d) (rejected w')) /\
  inFlight w' = [] /\
  pandingAppCrash (client w') = d /\
  forall (before after : list Event) (cid : CallId),
    crashFree before w' = true ->
    forallb (fun e => negb (isCrashPoll e)) before = true ->
    let w1 := run before w' in
    let w2 := step (Call cid m_getPendingCrashAndReset) w1 in
    fst (getPendingCrashAndReset (client w1)) = d /\
    settled w2 = (cid, Normal d) :: settled w1 /\
    (crashFree after w2 = true ->
     fst (getPendingCrashAndReset (client (run after w2))) = JUndefined).
Proof.
  intros Hdel Hparse Hd w'.
  assert (Hstep : w' = crashListener response w).
  { unfold w'. simpl in Hdel.
    destruct (obj_get id (eventCallbacks (ws (client w))))
      as [[action [|]]|] eqn:Hcb; try discriminate Hdel.
    rewrite Hparse in Hdel. simpl in Hdel.
    destruct (handle action response) as [v|] eqn:Hh; [|discriminate Hdel].
    exact (notice_runs_crashListener id raw w Hcb Hparse Hh). }
  split; [exact Hstep|]. rewrite Hstep.
  rewrite (crashListener_spec response w Hd).
  assert (Hp : pandingAppCrash
                 (client (rejectEach d (inFlight w)
                    (ws_resetInFlightPromises (on_client (set_pandingAppCrash d) w))))
               = d)
    by (rewrite rejectEach_pandingAppCrash; reflexivity).
  repeat split.
  - intros id' entry Hin. apply rejectEach_rejects_all with (entry := entry). exact Hin.
  - unfold inFlight. rewrite rejectEach_ws. reflexivity.
  - exact Hp.
  - simpl. rewrite run_keeps_crash by assumption. exact Hp.
  - simpl. rewrite run_keeps_crash by assumption. rewrite Hp. reflexivity.
  - intros Hafter. simpl. apply run_stays_undefined; [exact Hafter | reflexivity].
Qed.

(** C2, as the code has it.  A producer that throws makes [execute] reject
    with the very value it threw: nothing is sent, and [successfulTestRun]
    keeps its value.  A ready value [v], or a producer that returns [v], is
    dispatched as [Invoke(v)]; when the send settles, [execute] resolves to
    the action's reading of the reply, or, when the send or the reading
    fails with [err], rejects with
    [removeInternalStackEntries(asError(err))] and sets [successfulTestRun]
    to false. *)
Theorem execute_round_trip (cid : CallId) (w : World) :
  (forall e : JsVal,
      let w' := step (Call cid (m_execute (Producer (Throw e)))) w in
      settled w' = (cid, Throw e) :: settled w /\
      successfulTestRun (client w') = successfulTestRun (client w) /\
      sent w' = sent w) /\
  (forall (invocation : Invocation) (v : JsVal),
      invocation = Value v \/ invocation = Producer (Normal v) ->
      let action := Invoke actions v in
      let entry := {| message := action; awaiting := FromExecute cid |} in
      let w1 := step (Call cid (m_execute invocation)) w in
      sent w1 = action :: sent w /\
      obj_get (messageId action) (inFlight w1) = Some entry /\
      settled w1 = settled w /\
      forall (w2 : World) (response : Completion string),
        obj_get (messageId action) (inFlight w2) = Some entry ->
        let w3 := step (settleSend (messageId action) response) w2 in
        match interpret action response with
        | Normal r =>
            settled w3 = (cid, Normal r) :: settled w2 /\
            successfulTestRun (client w3) = successfulTestRun (client w2)
        | Throw err =>
            settled w3
            = (cid, Throw (removeInternalStackEntries (asError err))) :: settled w2 /\
            successfulTestRun (client w3) = false
        end).
Proof.
  split.
  - intros e. repeat split.
  - intros invocation v Hinv action entry w1.
    assert (Hw1 : w1 = sendAction action (FromExecute cid)
                         (if truthy (slowInvocationTimeout (client w))
                          then arm w else w))
      by (destruct Hinv; subst invocation; reflexivity).
    rewrite Hw1. repeat split.
    + rewrite sendAction_sent. destruct (truthy _); reflexivity.
    + apply sendAction_inFlight.
    + destruct (truthy _); reflexivity.
    + intros w2 response Hget w3. unfold w3.
      rewrite step_settleSend with (entry := entry) by exact Hget.
      pose proof (resume_execute entry (cid := cid) response
                    (match response with
                     | Normal _ => ws_forget (messageId action) w2
                     | Throw err => note_rejected (messageId action) err
                                      (ws_forget (messageId action) w2)
                     end) eq_refl) as Hres.
      simpl message in Hres.
      destruct (interpret action response) as [r|err]; rewrite Hres; simpl;
        rewrite disarm_settled, disarm_client; destruct response; repeat split.
Qed.

(** C5, as the code has it.  [isConnected] is false in a new client; a step
    turns it from false to true only when it is the reply that
    [waitUntilReady()] waits for and the action accepts it (in a world reached
    from a new client, the reply to the [Ready] action), and such a reply
    does turn it true; a [cleanup()] that returns at once leaves it false
    unless the client was connected with a crash pending, which [cleanup]
    does not touch; a [cleanup()] that waited for its reply leaves it false
    when it returns. *)
Theorem isConnected_lifecycle (config : Config) :
  isConnected (client (new_Client config)) = false /\
  (forall (e : Event) (w : World),
      isConnected (client w) = false ->
      isConnected (client (step e w)) = true ->
      exists id raw entry cid v,
        e = Reply id raw /\
        obj_get id (inFlight w) = Some entry /\
        awaiting entry = FromWaitUntilReady cid /\
        interpret (message entry) (Normal raw) = Normal v /\
        settled (step e w) = (cid, Normal JUndefined) :: settled w) /\
  (forall (events : list Event) (e : Event),
      let w := run events (new_Client config) in
      isConnected (client w) = false ->
      isConnected (client (step e w)) = true ->
      exists raw cid v,
        e = Reply (messageId (Ready actions)) raw /\
        obj_get (messageId (Ready actions)) (inFlight w)
        = Some {| message := Ready actions; awaiting := FromWaitUntilReady cid |} /\
        interpret (Ready actions) (Normal raw) = Normal v /\
        settled (step e w) = (cid, Normal JUndefined) :: settled w) /\
  (forall (cid : CallId) (w : World) (raw : string) (v : JsVal),
      interpret (Ready actions) (Normal raw) = Normal v ->
      let w1 := step (Call cid m_waitUntilReady) w in
      let w2 := step (Reply (messageId (Ready actions)) raw) w1 in
      isConnected (client w1) = isConnected (client w) /\
      isConnected (client w2) = true /\
      settled w2 = (cid, Normal JUndefined) :: settled w) /\
  (forall (cid : CallId) (w : World),
      let w' := step (Call cid m_cleanup) w in
      if isConnected (client w) && negb (truthy (pandingAppCrash (client w)))
         && ws_isOpen w
      then settled w' = settled w /\ isConnected (client w') = true
      else settled w' = (cid, Normal JUndefined) :: settled w /\
           isConnected (client w')
           = isConnected (client w) && truthy (pandingAppCrash (client w))) /\
  (forall (cid : CallId) (w : World) (id : Z) (entry : InFlight)
          (response : Completion string),
      obj_get id (inFlight w) = Some entry ->
      awaiting entry = FromCleanup cid ->
      let w' := step (settleSend id response) w in
      match interpret (message entry) response with
      | Normal _ =>
          settled w' = (cid, Normal JUndefined) :: settled w /\
          isConnected (client w') = false
      | Throw e =>
          settled w' = (cid, Throw e) :: settled w /\
          isConnected (client w') = isConnected (client w)
      end).
Proof.
  split; [reflexivity|]. split; [|split; [|split; [|split]]].
  - exact connects_only_on_ready_reply.
  - exact (connects_only_on_ready_reply_reachable config).
  - intros cid w raw v Hi w1 w2. split; [reflexivity|].
    unfold w2, w1. simpl step.
    rewrite sendAction_inFlight. unfold resume. simpl message. simpl awaiting.
    rewrite Hi. split; reflexivity.
  - intros cid w. simpl.
    unfold cleanup, cleanup_close, disarm, clearTimeout, ws_isOpen.
    destruct w as [[conn cfg [o fl cbs] h t ok crash] ts nt se rj st wa no].
    simpl. destruct h; simpl; destruct conn, (truthy crash), o; simpl;
      split; reflexivity.
  - intros cid w id entry response Hget Hk w'. unfold w'.
    rewrite step_settleSend with (entry := entry) by exact Hget.
    pose proof (resume_cleanup entry response
                  (match response with
                   | Normal _ => ws_forget id w
                   | Throw err => note_rejected id err (ws_forget id w)
                   end) Hk) as Hres.
    destruct (interpret (message entry) response) as [v|e].
    + destruct Hres as (Hc & Hs & _). rewrite Hc, Hs. destruct response; split; reflexivity.
    + rewrite Hres. destruct response; split; reflexivity.
Qed.


(** C6.  With a login, a status and an invoke request in flight, in
    whatever order the transport enumerates them, [dumpPendingRequests]
    emits one warning that lists the login and the invoke request, each
    with its id, its type and its params, and not the status request; after
    the call nothing is in flight. *)
Theorem dumpPendingRequests_excludes_status
  (testName : option string) (w : World) (a b c : InFlight) :
  Permutation (obj_values (inFlight w)) [a; b; c] ->
  type (message a) = "login" ->
  type (message b) = "currentStatus" ->
  type (message c) = "invoke" ->
  let line := fun m : Action =>
    (nl ++ "  (id = " ++ showZ (messageId m) ++ ") " ++ type m ++ ": "
        ++ JSON_stringify (params m))%string in
  let report := fun first second : Action =>
    ((("App has not responded to the network requests below:" ++ line first)
        ++ line second) ++ nl ++ nl ++ dumpNotice testName ++ nl)%string in
  let w' := dumpPendingRequests testName w in
  (warnings w' = report (message a) (message c) :: warnings w \/
   warnings w' = report (message c) (message a) :: warnings w) /\
  inFlight w' = [].
Proof.
  intros Hperm Ha Hb Hc line report w'.
  assert (Hmsgs : Permutation [message a; message c] (pendingMessages w)).
  { unfold pendingMessages.
    apply Permutation_sym.
    apply (Permutation_map (@message)) in Hperm.
    apply (Permutation_filter
             (fun m => negb (String.eqb (type m) "currentStatus"))) in Hperm.
    simpl in Hperm. rewrite Ha, Hb, Hc in Hperm. simpl in Hperm. exact Hperm. }
  apply Permutation_length_2_inv in Hmsgs.
  unfold w', dumpPendingRequests.
  destruct Hmsgs as [Hm | Hm]; rewrite Hm; simpl; split;
    try reflexivity; [left | right]; reflexivity.
Qed.
End Claims.

(** * Further properties of the client *)

Section Further.
Context `{Externals}.

Ltac split_match :=
  match goal with
  | |- context [match ?x with _ => _ end] => destruct x eqn:?; simpl
  end.

(** ** Methods that only send an action *)

Lemma call_plainAction cid m a w :
  plainAction m = Some a -> call cid m w = sendAction a (FromPlain cid) w.
Proof. destruct m; simpl; intros Ha; try discriminate Ha; injection Ha as <-; reflexivity. Qed.

(** What the caller of such a method does with the outcome of its send. *)
Lemma resume_plain entry cid response w :
  awaiting entry = FromPlain cid ->
  resume entry response w
  = settle cid (match interpret (message entry) response with
                | Normal _ => Normal JUndefined
                | Throw e => Throw e
                end) w.
Proof.
  intros Hk. unfold resume. rewrite Hk.
  destruct (interpret (message entry) response); reflexivity.
Qed.

(** X2.  [reloadReactNative], [waitForBackground], [waitForActive],
    [currentStatus], [setSyncSettings], [shake], [setOrientation],
    [startInstrumentsRecording], [stopInstrumentsRecording] and
    [deliverPayload] send their one action and touch nothing else of the
    client.  When the send settles they resolve to [undefined], whatever the
    action made of the reply, or reject with the error as it is: it is not
    sanitized, and neither [successfulTestRun] nor [isConnected] nor the
    timers change. *)
Theorem plain_method_round_trip (cid : CallId) (m : Method) (a : Action) (w : World) :
  plainAction m = Some a ->
  let entry := {| message := a; awaiting := FromPlain cid |} in
  let w1 := step (Call cid m) w in
  sent w1 = a :: sent w /\
  obj_get (messageId a) (inFlight w1) = Some entry /\
  settled w1 = settled w /\
  timers w1 = timers w /\
  set_ws (ws (client w)) (client w1) = client w /\
  forall (w2 : World) (response : Completion string),
    obj_get (messageId a) (inFlight w2) = Some entry ->
    let w3 := step (settleSend (messageId a) response) w2 in
    settled w3
    = (cid, match interpret a response with
            | Normal _ => Normal JUndefined
            | Throw e => Throw e
            end) :: settled w2 /\
    isConnected (client w3) = isConnected (client w2) /\
    successfulTestRun (client w3) = successfulTestRun (client w2) /\
    pandingAppCrash (client w3) = pandingAppCrash (client w2) /\
    timers w3 = timers w2 /\
    sent w3 = sent w2.
Proof.
  intros Ha entry w1. unfold w1. simpl step. rewrite (call_plainAction cid m w Ha).
  split; [reflexivity|]. split; [apply sendAction_inFlight|].
  split; [reflexivity|]. split; [reflexivity|].
  split.
  { destruct w as [[conn cfg t h to ok crash] ts nt se rj st wa no]. reflexivity. }
  intros w2 response Hget.
  rewrite step_settleSend with (entry := entry) by assumption.
  rewrite resume_plain with (cid := cid) by reflexivity.
  destruct response; repeat split.
Qed.
(** ** The run-success flag *)

Ltac open_world_ops :=
  unfold resume, call, cleanup, execute, dumpPendingRequests, fire, cleanup_close,
    arm, disarm, clearTimeout, slowInvocationStatus, setTimeout, sendAction, ws_send,
    ws_open, ws_close, ws_forget, ws_resetInFlightPromises, note_rejected, warn,
    settle, on_ws, on_client, set_client, ws_isOpen, inFlight, awaitsExecute,
    awaitsWatchdog;
  simpl.

Lemma resume_successfulTestRun entry response w :
  successfulTestRun (client (resume entry response w))
  = if awaitsExecute entry
    then match interpret (message entry) response with
         | Normal _ => successfulTestRun (client w)
         | Throw _ => false
         end
    else successfulTestRun (client w).
Proof. open_world_ops. repeat split_match; reflexivity. Qed.

Lemma rejectEach_successfulTestRun error pending w :
  successfulTestRun (client (rejectEach error pending w))
  = successfulTestRun (client w)
    && forallb (fun p : Z * InFlight => negb (awaitsExecute (snd p))) pending.
Proof.
  revert w. induction pending as [|[id entry] rest IH]; intros w; simpl.
  - rewrite andb_true_r. reflexivity.
  - rewrite IH, resume_successfulTestRun, interpret_Throw. simpl.
    destruct (awaitsExecute entry); simpl; [|reflexivity].
    rewrite andb_false_r. reflexivity.
Qed.

Lemma call_successfulTestRun cid m w :
  successfulTestRun (client (call cid m w)) = successfulTestRun (client w).
Proof. destruct m; open_world_ops; repeat split_match; reflexivity. Qed.

Lemma fire_successfulTestRun h w :
  successfulTestRun (client (fire h w)) = successfulTestRun (client w).
Proof. open_world_ops. repeat split_match; reflexivity. Qed.

Lemma some_entry_awaits_execute (pending : list (Z * InFlight)) :
  forallb (fun p : Z * InFlight => negb (awaitsExecute (snd p))) pending = false ->
  exists id entry, In (id, entry) pending /\ awaitsExecute entry = true.
Proof.
  induction pending as [|[id entry] rest IH]; simpl; intros Hf.
  - discriminate Hf.
  - destruct (awaitsExecute entry) eqn:E.
    + exists id, entry. split; [left; reflexivity | exact E].
    + destruct (IH Hf) as (id' & entry' & Hin & He).
      exists id', entry'. split; [right; exact Hin | exact He].
Qed.

(** No step sets the flag back to true. *)
Lemma step_stays_unsuccessful e w :
  successfulTestRun (client w) = false ->
  successfulTestRun (client (step e w)) = false.
Proof.
  intros Hf. destruct e as [cid m | id raw | id err | id raw | h |]; simpl.
  - rewrite call_successfulTestRun. exact Hf.
  - destruct (obj_get id (inFlight w)); [|exact Hf].
    rewrite resume_successfulTestRun. simpl. rewrite Hf.
    repeat split_match; reflexivity.
  - destruct (obj_get id (inFlight w)); [|exact Hf].
    rewrite resume_successfulTestRun. simpl. rewrite Hf.
    repeat split_match; reflexivity.
  - destruct (obj_get id (eventCallbacks (ws (client w)))) as [[action cb]|];
      [|exact Hf].
    unfold actionListener.
    destruct (JSON_parse raw) as [parsed|]; simpl; [|exact Hf].
    destruct (handle action parsed); simpl; [|exact Hf].
    destruct cb.
    + unfold crashListener, ws_rejectAll.
      destruct (p <- getProp parsed "params";; getProp p "errorDetails");
        [|exact Hf].
      rewrite rejectEach_successfulTestRun. simpl. rewrite Hf. reflexivity.
    + unfold nonresponsivenessListener.
      destruct (getProp parsed "params"); exact Hf.
  - rewrite fire_successfulTestRun. exact Hf.
  - exact Hf.
Qed.

(** X3.  Once [successfulTestRun] is false it stays false, whatever happens
    next.  And it goes from true to false only where an invocation fails:
    the send awaited inside [execute] settles with a failure, or a crash
    notice arrives while such a send is pending.  A failure of [connect],
    [waitUntilReady], [cleanup] or any other action leaves the flag as it
    is. *)
Theorem successfulTestRun_only_cleared_by_execute :
  (forall (events : list Event) (w : World),
      successfulTestRun (client w) = false ->
      successfulTestRun (client (run events w)) = false) /\
  (forall (e : Event) (w : World),
      successfulTestRun (client w) = true ->
      successfulTestRun (client (step e w)) = false ->
      (exists id response entry err,
          e = settleSend id response /\
          obj_get id (inFlight w) = Some entry /\
          awaitsExecute entry = true /\
          interpret (message entry) response = Throw err) \/
      (deliversCrash e w = true /\
       exists id entry, In (id, entry) (inFlight w) /\ awaitsExecute entry = true)).
Proof.
  split.
  - intros events. induction events as [|e rest IH]; intros w Hf; [exact Hf|].
    rewrite run_cons. apply IH, step_stays_unsuccessful, Hf.
  - intros e w Ht Hf.
    destruct e as [cid m | id raw | id err | id raw | h |]; simpl in Hf.
    + rewrite call_successfulTestRun in Hf. congruence.
    + left. destruct (obj_get id (inFlight w)) as [entry|] eqn:Hget; [|congruence].
      rewrite resume_successfulTestRun in Hf.
      destruct (awaitsExecute entry) eqn:He; [|simpl in Hf; congruence].
      destruct (interpret (message entry) (Normal raw)) as [v|err] eqn:Hi;
        [simpl in Hf; congruence|].
      exists id, (Normal raw), entry, err. repeat split; assumption.
    + left. destruct (obj_get id (inFlight w)) as [entry|] eqn:Hget; [|congruence].
      rewrite resume_successfulTestRun in Hf.
      destruct (awaitsExecute entry) eqn:He; [|simpl in Hf; congruence].
      exists id, (Throw err), entry, err. repeat split; assumption.
    + right. simpl.
      destruct (obj_get id (eventCallbacks (ws (client w)))) as [[action cb]|];
        [|congruence].
      unfold actionListener in Hf.
      destruct (JSON_parse raw) as [parsed|]; simpl in *; [|congruence].
      destruct (handle action parsed); simpl in *; [|congruence].
      destruct cb.
      * unfold crashListener, ws_rejectAll in Hf.
        destruct (p <- getProp parsed "params";; getProp p "errorDetails");
          [|congruence].
        rewrite rejectEach_successfulTestRun in Hf. simpl in Hf.
        rewrite Ht in Hf. simpl in Hf.
        split; [reflexivity|]. apply some_entry_awaits_execute. exact Hf.
      * unfold nonresponsivenessListener in Hf.
        destruct (getProp parsed "params"); simpl in Hf; congruence.
    + rewrite fire_successfulTestRun in Hf. congruence.
    + congruence.
Qed.
(** ** The watchdog *)

Lemma scheduled_existsb h (ts : list TimerId) :
  In h ts -> existsb (Nat.eqb h) ts = true.
Proof.
  intros Hin. apply existsb_exists. exists h. split; [exact Hin | apply Nat.eqb_refl].
Qed.

Lemma not_In_cleared h (ts : list TimerId) :
  ~ In h (filter (fun h' => negb (Nat.eqb h' h)) ts).
Proof.
  intros Hin. apply filter_In in Hin. destruct Hin as [_ Hneq].
  rewrite Nat.eqb_refl in Hneq. discriminate Hneq.
Qed.

Lemma In_cleared h h' (ts : list TimerId) :
  In h' (filter (fun x => negb (Nat.eqb x h)) ts) -> In h' ts.
Proof. intros Hin. apply filter_In in Hin. exact (proj1 Hin). Qed.

(** What the timer callback does with the outcome of its status query. *)
Lemma resume_watchdog entry response w :
  awaiting entry = FromWatchdog ->
  resume entry response w
  = match interpret (message entry) response with
    | Normal _ => arm w
    | Throw _ => w
    end.
Proof. intros Hk. unfold resume. rewrite Hk. reflexivity. Qed.

(** X4.  A watchdog timer that fires is spent and sets no timer by itself.
    With the channel closed nothing is sent and the watchdog ends there; with
    the channel open one [currentStatus] query goes out and the callback
    waits.  When that query is answered and accepted, exactly one new timer
    is set and its handle stored; when the query fails, no timer is set, so
    the watchdog stops.  None of this settles a call of the test code. *)
Theorem watchdog_cycle (h : TimerId) (w : World) :
  In h (timers w) ->
  let query := CurrentStatus actions in
  let entry := {| message := query; awaiting := FromWatchdog |} in
  let w1 := step (TimerFires h) w in
  ~ In h (timers w1) /\
  (forall h', In h' (timers w1) -> In h' (timers w)) /\
  settled w1 = settled w /\
  (if ws_isOpen w
   then sent w1 = query :: sent w /\
        obj_get (messageId query) (inFlight w1) = Some entry
   else sent w1 = sent w /\ inFlight w1 = inFlight w) /\
  forall (w2 : World) (response : Completion string),
    obj_get (messageId query) (inFlight w2) = Some entry ->
    let w3 := step (settleSend (messageId query) response) w2 in
    sent w3 = sent w2 /\
    settled w3 = settled w2 /\
    match interpret query response with
    | Normal _ =>
        timers w3 = nextTimer w2 :: timers w2 /\
        slowInvocationStatusHandler (client w3) = Some (nextTimer w2)
    | Throw _ =>
        timers w3 = timers w2 /\
        slowInvocationStatusHandler (client w3)
        = slowInvocationStatusHandler (client w2)
    end.
Proof.
  intros Hin query entry w1.
  assert (Hw1 : w1 = if ws_isOpen w
                     then sendAction query FromWatchdog (clearTimeout (Some h) w)
                     else clearTimeout (Some h) w).
  { unfold w1. simpl. unfold fire. rewrite (scheduled_existsb h (timers w) Hin).
    reflexivity. }
  rewrite Hw1. split; [|split; [|split; [|split]]].
  - destruct (ws_isOpen w); simpl; apply not_In_cleared.
  - intros h'. destruct (ws_isOpen w); simpl; apply In_cleared.
  - destruct (ws_isOpen w); reflexivity.
  - destruct (ws_isOpen w).
    + split; [reflexivity | apply sendAction_inFlight].
    + split; reflexivity.
  - intros w2 response Hget.
    rewrite step_settleSend with (entry := entry) by assumption.
    rewrite resume_watchdog by reflexivity. simpl message.
    destruct (interpret query response); destruct response; repeat split.
Qed.

(** X5.  [cleanup()] cancels the timer whose handle is stored, whatever the
    state it is called in and whether or not it goes on to send; it sets no
    timer, and it writes neither [successfulTestRun] nor [pandingAppCrash]
    nor the stored handle. *)
Theorem cleanup_cancels_stored_timer (cid : CallId) (w : World) (h : TimerId) :
  slowInvocationStatusHandler (client w) = Some h ->
  let w' := step (Call cid m_cleanup) w in
  ~ In h (timers w') /\
  (forall h', In h' (timers w') -> In h' (timers w)) /\
  successfulTestRun (client w') = successfulTestRun (client w) /\
  pandingAppCrash (client w') = pandingAppCrash (client w) /\
  slowInvocationStatusHandler (client w') = Some h.
Proof.
  intros Hh. simpl.
  unfold cleanup, cleanup_close, disarm, sendAction, ws_send, ws_isOpen.
  rewrite Hh. simpl.
  repeat split_match; repeat split; simpl;
    try apply not_In_cleared; try (intros h'; apply In_cleared); try exact Hh.
Qed.
(** *** The watchdog switched off *)

Lemma watchdogIdle_keep w w' :
  slowInvocationTimeout (client w') = slowInvocationTimeout (client w) ->
  slowInvocationStatusHandler (client w') = slowInvocationStatusHandler (client w) ->
  timers w' = timers w ->
  (forall x, In x (inFlight w') -> In x (inFlight w)) ->
  watchdogIdle w -> watchdogIdle w'.
Proof.
  intros Hto Hh Hts Hsub (Hoff & Hnone & Hempty & Hfl).
  repeat split; try congruence.
  intros id entry Hin. apply (Hfl id entry), Hsub, Hin.
Qed.

Lemma watchdogIdle_disarm w : watchdogIdle w -> disarm w = w.
Proof. intros (_ & Hnone & _). unfold disarm. rewrite Hnone. reflexivity. Qed.

Lemma watchdogIdle_sendAction action k w :
  k <> FromWatchdog -> watchdogIdle w -> watchdogIdle (sendAction action k w).
Proof.
  intros Hk (Hoff & Hnone & Hempty & Hfl). repeat split; try assumption.
  intros id entry Hin. unfold sendAction, ws_send, inFlight in Hin. simpl in Hin.
  apply In_obj_set in Hin. destruct Hin as [Heq | Hin].
  - injection Heq as _ ->. unfold awaitsWatchdog. simpl.
    destruct k; try reflexivity. contradiction.
  - exact (Hfl id entry Hin).
Qed.

Lemma watchdogIdle_cleanup_close cid w :
  watchdogIdle w -> watchdogIdle (cleanup_close cid w).
Proof.
  apply watchdogIdle_keep; unfold cleanup_close, inFlight;
    destruct (ws_isOpen w); try reflexivity; auto.
Qed.

Lemma watchdogIdle_resume entry response w :
  awaitsWatchdog entry = false ->
  watchdogIdle w -> watchdogIdle (resume entry response w).
Proof.
  intros Hk Hidle. unfold resume. unfold awaitsWatchdog in Hk.
  destruct (awaiting entry) as [c|c|c|c|]; try discriminate Hk;
    destruct (interpret (message entry) response).
  - revert Hidle. apply watchdogIdle_keep; auto.
  - revert Hidle. apply watchdogIdle_keep; auto.
  - revert Hidle. apply watchdogIdle_keep; auto.
  - revert Hidle. apply watchdogIdle_keep; auto.
  - apply watchdogIdle_cleanup_close.
    revert Hidle. apply watchdogIdle_keep; auto.
  - revert Hidle. apply watchdogIdle_keep; auto.
  - rewrite watchdogIdle_disarm by exact Hidle.
    revert Hidle. apply watchdogIdle_keep; auto.
  - assert (Hidle' : watchdogIdle (on_client (set_successfulTestRun false) w))
      by (revert Hidle; apply watchdogIdle_keep; auto).
    rewrite watchdogIdle_disarm by exact Hidle'.
    revert Hidle'. apply watchdogIdle_keep; auto.
Qed.

Lemma watchdogIdle_rejectEach error pending w :
  (forall id entry, In (id, entry) pending -> awaitsWatchdog entry = false) ->
  watchdogIdle w -> watchdogIdle (rejectEach error pending w).
Proof.
  revert w. induction pending as [|[id entry] rest IH]; intros w Hall Hidle; simpl.
  - exact Hidle.
  - apply IH.
    + intros id' entry' Hin. apply (Hall id' entry'). right. exact Hin.
    + apply watchdogIdle_resume; [apply (Hall id entry); left; reflexivity|].
      revert Hidle. apply watchdogIdle_keep; auto.
Qed.

Lemma watchdogIdle_call cid m w : watchdogIdle w -> watchdogIdle (call cid m w).
Proof.
  intros Hidle.
  assert (Hsend : forall action k w0, k <> FromWatchdog -> watchdogIdle w0 ->
                                      watchdogIdle (sendAction action k w0))
    by (intros; apply watchdogIdle_sendAction; assumption).
  destruct m; simpl; try (apply Hsend; [discriminate | exact Hidle]).
  - destruct opening.
    + apply Hsend; [discriminate|]. revert Hidle. apply watchdogIdle_keep; auto.
    + revert Hidle. apply watchdogIdle_keep; auto.
  - unfold cleanup. rewrite watchdogIdle_disarm by exact Hidle.
    destruct (isConnected (client w) && negb (truthy (pandingAppCrash (client w)))).
    + destruct (ws_isOpen w).
      * apply Hsend; [discriminate | exact Hidle].
      * apply watchdogIdle_cleanup_close. revert Hidle. apply watchdogIdle_keep; auto.
    + apply watchdogIdle_cleanup_close. exact Hidle.
  - unfold execute.
    destruct (match invocation with Value v => Normal v | Producer r => r end).
    + destruct Hidle as (Hoff & Hrest). rewrite Hoff.
      apply Hsend; [discriminate | exact (conj Hoff Hrest)].
    + revert Hidle. apply watchdogIdle_keep; auto.
  - revert Hidle. apply watchdogIdle_keep; auto.
  - revert Hidle. apply watchdogIdle_keep; auto.
  - unfold dumpPendingRequests. destruct (pendingMessages w).
    + revert Hidle. apply watchdogIdle_keep; auto.
    + revert Hidle. apply watchdogIdle_keep; auto. intros x [].
Qed.

Lemma watchdogIdle_step e w : watchdogIdle w -> watchdogIdle (step e w).
Proof.
  intros Hidle. destruct e as [cid m | id raw | id err | id raw | h |]; simpl.
  - apply watchdogIdle_call. exact Hidle.
  - destruct (obj_get id (inFlight w)) as [entry|] eqn:Hget; [|exact Hidle].
    apply watchdogIdle_resume.
    + destruct Hidle as (_ & _ & _ & Hfl). exact (Hfl id entry (obj_get_In _ _ Hget)).
    + revert Hidle. apply watchdogIdle_keep; auto.
      intros x. apply In_obj_delete.
  - destruct (obj_get id (inFlight w)) as [entry|] eqn:Hget; [|exact Hidle].
    apply watchdogIdle_resume.
    + destruct Hidle as (_ & _ & _ & Hfl). exact (Hfl id entry (obj_get_In _ _ Hget)).
    + revert Hidle. apply watchdogIdle_keep; auto.
      intros x. apply In_obj_delete.
  - destruct (obj_get id (eventCallbacks (ws (client w)))) as [[action cb]|];
      [|exact Hidle].
    unfold actionListener.
    destruct (JSON_parse raw) as [parsed|]; simpl; [|exact Hidle].
    destruct (handle action parsed); simpl; [|exact Hidle].
    destruct cb.
    + unfold crashListener, ws_rejectAll.
      destruct (p <- getProp parsed "params";; getProp p "errorDetails");
        [|exact Hidle].
      apply watchdogIdle_rejectEach.
      * destruct Hidle as (_ & _ & _ & Hfl). exact Hfl.
      * revert Hidle. apply watchdogIdle_keep; auto. intros x [].
    + unfold nonresponsivenessListener.
      destruct (getProp parsed "params"); [|exact Hidle].
      revert Hidle. apply watchdogIdle_keep; auto.
  - unfold fire. destruct Hidle as (Hoff & Hnone & Hempty & Hfl).
    rewrite Hempty. simpl. repeat split; assumption.
  - revert Hidle. apply watchdogIdle_keep; auto.
Qed.

Lemma watchdogIdle_run (config : Config) (events : list Event) :
  truthy debugSynchronization = false ->
  watchdogIdle (run events (new_Client config)).
Proof.
  intros Hoff.
  assert (Hnew : watchdogIdle (new_Client config))
    by (repeat split; [exact Hoff | intros id entry []]).
  revert Hnew. generalize (new_Client config).
  induction events as [|e rest IH]; intros w0 Hidle; [exact Hidle|].
  rewrite run_cons. apply IH, watchdogIdle_step, Hidle.
Qed.

(** X6.  With [debug-synchronization] unset (falsy), the watchdog never
    comes to life: whatever the test code and the app do after the client is
    constructed, no timer is ever scheduled, no handle is stored, and no
    status query of the watchdog is in flight. *)
Theorem watchdog_stays_off (config : Config) (events : list Event) :
  truthy debugSynchronization = false ->
  let w := run events (new_Client config) in
  timers w = [] /\
  slowInvocationStatusHandler (client w) = None /\
  forall id entry, In (id, entry) (inFlight w) -> awaitsWatchdog entry = false.
Proof.
  intros Hoff w.
  destruct (watchdogIdle_run config events Hoff) as (_ & Hnone & Hempty & Hfl).
  repeat split; assumption.
Qed.
(** *** Handles are never reused *)












(** ** A crash and the callers that wait *)

Lemma resume_Throw_sent entry e w : sent (resume entry (Throw e) w) = sent w.
Proof. open_world_ops. repeat split_match; reflexivity. Qed.

Lemma resume_Throw_timers entry e w h :
  In h (timers (resume entry (Throw e) w)) -> In h (timers w).
Proof.
  open_world_ops. repeat split_match; intros Hin;
    try exact Hin; exact (In_cleared _ _ _ Hin).
Qed.

Lemma resume_Throw_seen entry e w x :
  rejectionSeenBy (awaiting entry) e = Some x ->
  In x (settled (resume entry (Throw e) w)).
Proof.
  unfold rejectionSeenBy. open_world_ops.
  destruct (awaiting entry); intros Hx; try discriminate Hx;
    injection Hx as <-; repeat split_match; left; reflexivity.
Qed.

Lemma rejectEach_sent error pending w :
  sent (rejectEach error pending w) = sent w.
Proof.
  revert w. induction pending as [|[id entry] rest IH]; intros w; simpl.
  - reflexivity.
  - rewrite IH, resume_Throw_sent. reflexivity.
Qed.

Lemma rejectEach_timers error pending w h :
  In h (timers (rejectEach error pending w)) -> In h (timers w).
Proof.
  revert w. induction pending as [|[id entry] rest IH]; intros w Hin; simpl in Hin.
  - exact Hin.
  - apply IH in Hin. apply resume_Throw_timers in Hin. exact Hin.
Qed.

Lemma rejectEach_seen error pending w id entry x :
  In (id, entry) pending ->
  rejectionSeenBy (awaiting entry) error = Some x ->
  In x (settled (rejectEach error pending w)).
Proof.
  revert w. induction pending as [|[id' entry'] rest IH]; intros w Hin Hx; simpl.
  - contradiction.
  - destruct Hin as [Heq | Hin].
    + injection Heq as -> ->. apply rejectEach_settled_grows.
      apply resume_Throw_seen. exact Hx.
    + apply IH; assumption.
Qed.

(** A notice that reaches the crash callback. *)
Lemma crash_notice_step id raw response d w :
  deliversCrash (Notice id raw) w = true ->
  JSON_parse raw = Normal response ->
  errorDetailsOf response = Normal d ->
  step (Notice id raw) w
  = rejectEach d (inFlight w)
      (ws_resetInFlightPromises (on_client (set_pandingAppCrash d) w)).
Proof.
  intros Hdel Hparse Hd. simpl in Hdel.
  destruct (obj_get id (eventCallbacks (ws (client w))))
    as [[action [|]]|] eqn:Hcb; try discriminate Hdel.
  rewrite Hparse in Hdel. simpl in Hdel.
  destruct (handle action response) as [v|] eqn:Hh; [|discriminate Hdel].
  rewrite (notice_runs_crashListener id raw w Hcb Hparse Hh).
  apply crashListener_spec. exact Hd.
Qed.

(** X8.  A crash notice fails every call that waits for a reply, at once:
    the promise of each caller is rejected with the crash detail, as it is
    for [connect], [waitUntilReady], [cleanup] and the plain methods, and
    sanitized for [execute].  The crash itself sends nothing, sets no timer,
    and leaves [isConnected] and the channel as they are. *)
Theorem crash_fails_every_caller
  (id : Z) (raw : string) (response d : JsVal) (w : World) :
  deliversCrash (Notice id raw) w = true ->
  JSON_parse raw = Normal response ->
  errorDetailsOf response = Normal d ->
  let w' := step (Notice id raw) w in
  (forall id' entry x,
      In (id', entry) (inFlight w) ->
      rejectionSeenBy (awaiting entry) d = Some x ->
      In x (settled w')) /\
  (forall x, In x (settled w) -> In x (settled w')) /\
  sent w' = sent w /\
  (forall h, In h (timers w') -> In h (timers w)) /\
  isConnected (client w') = isConnected (client w) /\
  ws_isOpen w' = ws_isOpen w.
Proof.
  intros Hdel Hparse Hd w'. unfold w'.
  rewrite (crash_notice_step id raw w Hdel Hparse Hd).
  repeat split.
  - intros id' entry x Hin Hx. exact (rejectEach_seen _ _ _ id' entry Hin Hx).
  - intros x Hin. apply rejectEach_settled_grows. exact Hin.
  - rewrite rejectEach_sent. reflexivity.
  - intros h Hin. apply rejectEach_timers in Hin. exact Hin.
  - rewrite rejectEach_isConnected. reflexivity.
  - unfold ws_isOpen. rewrite rejectEach_ws. reflexivity.
Qed.

(** X9.  A notice that does not parse, that its action refuses, or whose
    payload has no [params] to read from never reaches the client: no crash
    is recorded, no pending promise is rejected, the nonresponsiveness
    callback is not called, and the same holds for a notice nobody listens
    to. *)
Theorem malformed_notice_is_ignored
  (id : Z) (raw : string) (w : World) :
  match obj_get id (eventCallbacks (ws (client w))) with
  | Some (action, clientCallback) =>
      exists e,
        (parsedResponse <- JSON_parse raw ;;
         _ <- handle action parsedResponse ;;
         match clientCallback with
         | CrashCallback => errorDetailsOf parsedResponse
         | NonresponsivenessCallback => getProp parsedResponse "params"
         end) = Throw e
  | None => True
  end ->
  step (Notice id raw) w = w.
Proof.
  simpl. destruct (obj_get id (eventCallbacks (ws (client w))))
    as [[action cb]|]; [|reflexivity].
  intros [e He]. unfold actionListener.
  destruct (JSON_parse raw) as [parsed|]; simpl in *; [|reflexivity].
  destruct (handle action parsed); simpl in *; [|reflexivity].
  destruct cb.
  - unfold crashListener. unfold errorDetailsOf in He. rewrite He. reflexivity.
  - unfold nonresponsivenessListener. rewrite He. reflexivity.
Qed.

(** ** The nonresponsiveness listener *)

Lemma obj_get_replace_other (V : Type) (k k' : Z) (v : V) (o : list (Z * V)) :
  k <> k' -> obj_get k (obj_replace k' v o) = obj_get k o.
Proof.
  intros Hne. induction o as [|[k0 v0] rest IH]; simpl; [reflexivity|].
  destruct (k' =? k0) eqn:E; simpl.
  - apply Z.eqb_eq in E. subst k0.
    destruct (k =? k') eqn:E'; [apply Z.eqb_eq in E'; contradiction | reflexivity].
  - rewrite IH. reflexivity.
Qed.

Lemma obj_get_insert_index_other (V : Type) (k k' : Z) (v : V) (o : list (Z * V)) :
  k <> k' -> obj_get k (obj_insert_index k' v o) = obj_get k o.
Proof.
  intros Hne. induction o as [|[k0 v0] rest IH]; simpl.
  - destruct (k =? k') eqn:E; [apply Z.eqb_eq in E; contradiction | reflexivity].
  - destruct (isArrayIndex k0 && (k0 <? k')); simpl.
    + rewrite IH. reflexivity.
    + destruct (k =? k') eqn:E; [apply Z.eqb_eq in E; contradiction | reflexivity].
Qed.

Lemma obj_get_append_other (V : Type) (k k' : Z) (v : V) (o : list (Z * V)) :
  k <> k' -> obj_get k (o ++ [(k', v)]) = obj_get k o.
Proof.
  intros Hne. induction o as [|[k0 v0] rest IH]; simpl.
  - destruct (k =? k') eqn:E; [apply Z.eqb_eq in E; contradiction | reflexivity].
  - rewrite IH. reflexivity.
Qed.

Lemma obj_get_set_other (V : Type) (k k' : Z) (v : V) (o : list (Z * V)) :
  k <> k' -> obj_get k (obj_set k' v o) = obj_get k o.
Proof.
  intros Hne. unfold obj_set. destruct (obj_get k' o).
  - apply obj_get_replace_other. exact Hne.
  - destruct (isArrayIndex k').
    + apply obj_get_insert_index_other. exact Hne.
    + apply obj_get_append_other. exact Hne.
Qed.

(** X10.  [setNonresponsivenessListener] registers its callback under the
    id of [AppNonresponsive] and leaves every listener registered under
    another id in place, the crash listener among them when the two ids
    differ; it sends nothing.  A nonresponsiveness notice that its action
    accepts is then handed to the callback as [event.params], and that is
    all: the client's fields, the pending requests, the timers and the
    promises of the test code are untouched. *)
Theorem nonresponsiveness_is_forwarded_only (cid : CallId) (w : World) :
  let listener := (AppNonresponsive actions, NonresponsivenessCallback) in
  let nid := messageId (AppNonresponsive actions) in
  let w1 := step (Call cid m_setNonresponsivenessListener) w in
  obj_get nid (eventCallbacks (ws (client w1))) = Some listener /\
  (forall id, id <> nid ->
     obj_get id (eventCallbacks (ws (client w1)))
     = obj_get id (eventCallbacks (ws (client w)))) /\
  inFlight w1 = inFlight w /\
  sent w1 = sent w /\
  forall (w2 : World) (raw : string) (event v p : JsVal),
    obj_get nid (eventCallbacks (ws (client w2))) = Some listener ->
    JSON_parse raw = Normal event ->
    handle (AppNonresponsive actions) event = Normal v ->
    getProp event "params" = Normal p ->
    let w3 := step (Notice nid raw) w2 in
    notified w3 = p :: notified w2 /\
    client w3 = client w2 /\
    timers w3 = timers w2 /\
    sent w3 = sent w2 /\
    rejected w3 = rejected w2 /\
    settled w3 = settled w2.
Proof.
  intros listener nid w1. unfold w1. simpl.
  split; [apply obj_get_set|].
  split; [intros id Hne; apply obj_get_set_other; exact Hne|].
  split; [reflexivity|]. split; [reflexivity|].
  intros w2 raw event v p Hcb Hparse Hhandle Hparams.
  rewrite Hcb. unfold actionListener. rewrite Hparse. simpl. rewrite Hhandle. simpl.
  unfold nonresponsivenessListener. rewrite Hparams. repeat split.
Qed.
(** ** The dump, for any set of pending requests *)

Lemma string_append_assoc (a b c : string) :
  ((a ++ b) ++ c)%string = (a ++ (b ++ c))%string.
Proof. induction a as [|ch a IH]; simpl; [reflexivity | rewrite IH; reflexivity]. Qed.

Lemma string_append_empty (a : string) : (a ++ EmptyString)%string = a.
Proof. induction a as [|ch a IH]; simpl; [reflexivity | rewrite IH; reflexivity]. Qed.

Lemma dump_lines (f : Action -> string) (messages : list Action) (dump : string) :
  fold_left (fun dump msg => (dump ++ f msg)%string) messages dump
  = (dump ++ fold_right String.append EmptyString (map f messages))%string.
Proof.
  revert dump. induction messages as [|m rest IH]; intros dump; simpl.
  - rewrite string_append_empty. reflexivity.
  - rewrite IH, string_append_assoc. reflexivity.
Qed.

(** X11.  Whenever some pending request is not a status poll,
    [dumpPendingRequests] emits one warning: the heading, one line for each
    pending request that is not a status poll, in the order the transport
    enumerates them, and the closing notice.  It then drops every pending
    request from the bookkeeping, the status polls as well, without settling
    or rejecting any promise, without sending anything, and without touching
    the client's own fields or the timers. *)
Theorem dumpPendingRequests_reports_and_clears
  (testName : option string) (w : World) :
  let listed :=
    filter (fun m => negb (isStatusPoll m))
           (map (@message) (obj_values (inFlight w))) in
  listed <> [] ->
  let w' := dumpPendingRequests testName w in
  warnings w'
  = ("App has not responded to the network requests below:"
       ++ fold_right String.append EmptyString (map dumpLine listed)
       ++ nl ++ nl ++ dumpNotice testName ++ nl)%string :: warnings w /\
  inFlight w' = [] /\
  settled w' = settled w /\
  rejected w' = rejected w /\
  sent w' = sent w /\
  timers w' = timers w /\
  set_ws (ws (client w)) (client w') = client w /\
  opened (ws (client w')) = opened (ws (client w)) /\
  eventCallbacks (ws (client w')) = eventCallbacks (ws (client w)).
Proof.
  intros listed Hsome w'. unfold w', dumpPendingRequests.
  change (pendingMessages w) with listed.
  destruct listed as [|m rest] eqn:El; [contradiction|].
  unfold dumpText. rewrite dump_lines, string_append_assoc.
  destruct w as [[conn cfg [o fl cbs] h t ok crash] ts nt se rj st wa no].
  repeat split.
Qed.

(** ** Connecting *)

(** X12.  [connect()] opens the channel before it logs in.  When opening
    fails it rejects with that failure and neither sends the login nor
    changes the channel.  When opening succeeds the channel is open and the
    login for the configured session id is on its way; [connect()] then
    resolves to [undefined] or rejects with the failure of the login.  At no
    point does [connect()] change [isConnected]. *)
Theorem connect_opens_then_logs_in (cid : CallId) (w : World) :
  (forall e : JsVal,
      let w' := step (Call cid (m_connect (Throw e))) w in
      settled w' = (cid, Throw e) :: settled w /\
      sent w' = sent w /\
      client w' = client w) /\
  (let login := Login actions (sessionId (configuration (client w))) in
   let entry := {| message := login; awaiting := FromPlain cid |} in
   let w1 := step (Call cid (m_connect (Normal tt))) w in
   ws_isOpen w1 = true /\
   sent w1 = login :: sent w /\
   obj_get (messageId login) (inFlight w1) = Some entry /\
   settled w1 = settled w /\
   isConnected (client w1) = isConnected (client w) /\
   forall (w2 : World) (response : Completion string),
     obj_get (messageId login) (inFlight w2) = Some entry ->
     let w3 := step (settleSend (messageId login) response) w2 in
     settled w3
     = (cid, match interpret login response with
             | Normal _ => Normal JUndefined
             | Throw e => Throw e
             end) :: settled w2 /\
     isConnected (client w3) = isConnected (client w2) /\
     successfulTestRun (client w3) = successfulTestRun (client w2)).
Proof.
  split.
  - intros e. repeat split.
  - simpl. split; [reflexivity|]. split; [reflexivity|].
    split; [apply sendAction_inFlight|]. split; [reflexivity|].
    split; [reflexivity|].
    intros w2 response Hget.
    rewrite step_settleSend
      with (entry := {| message := Login actions (sessionId (configuration (client w)));
                        awaiting := FromPlain cid |}) by assumption.
    rewrite resume_plain with (cid := cid) by reflexivity.
    destruct response; repeat split.
Qed.
(** ** Whole sessions *)

Lemma obj_set_nil (V : Type) (k : Z) (v : V) : obj_set k v [] = [(k, v)].
Proof. unfold obj_set. simpl. destruct (isArrayIndex k); reflexivity. Qed.

Lemma obj_get_single (V : Type) (k : Z) (v : V) : obj_get k [(k, v)] = Some v.
Proof. simpl. rewrite Z.eqb_refl. reflexivity. Qed.

Lemma obj_delete_single (V : Type) (k : Z) (v : V) : obj_delete k [(k, v)] = [].
Proof. simpl. rewrite Z.eqb_refl. reflexivity. Qed.

(** A send on an empty bookkeeping, settled before anything else happens. *)
Lemma exchange action k response w :
  inFlight w = [] ->
  step (settleSend (messageId action) response) (sendAction action k w)
  = resume {| message := action; awaiting := k |} response
      (delivered action response w).
Proof.
  intros Hempty.
  rewrite step_settleSend with (entry := {| message := action; awaiting := k |})
    by apply sendAction_inFlight.
  f_equal.
  destruct w as [[conn cfg [o fl cbs] h t ok crash] ts nt se rj st wa no].
  unfold inFlight in Hempty. simpl in Hempty. subst fl.
  unfold delivered, sendAction, ws_send, ws_forget, note_rejected, on_ws, on_client,
    set_client, set_ws, set_inFlightPromises. simpl.
  rewrite obj_set_nil, obj_delete_single. destruct response; reflexivity.
Qed.

Lemma connect_then_reply cid response w :
  inFlight w = [] ->
  let login := Login actions (sessionId (configuration (client w))) in
  run [Call cid (m_connect (Normal tt)); settleSend (messageId login) response] w
  = settle cid (match interpret login response with
                | Normal _ => Normal JUndefined
                | Throw e => Throw e
                end)
      (delivered login response (ws_open w)).
Proof.
  intros Hempty login. unfold run. cbn [fold_left].
  change (step (Call cid (m_connect (Normal tt))) w)
    with (sendAction login (FromPlain cid) (ws_open w)).
  rewrite exchange by exact Hempty.
  rewrite resume_plain with (cid := cid) by reflexivity. reflexivity.
Qed.

Lemma waitUntilReady_then_reply cid response w :
  inFlight w = [] ->
  run [Call cid m_waitUntilReady; settleSend (messageId (Ready actions)) response] w
  = match interpret (Ready actions) response with
    | Normal _ =>
        settle cid (Normal JUndefined)
          (on_client (set_isConnected true) (delivered (Ready actions) response w))
    | Throw e => settle cid (Throw e) (delivered (Ready actions) response w)
    end.
Proof.
  intros Hempty. unfold run. cbn [fold_left].
  change (step (Call cid m_waitUntilReady) w)
    with (sendAction (Ready actions) (FromWaitUntilReady cid) w).
  rewrite exchange by exact Hempty. reflexivity.
Qed.

Lemma execute_then_reply cid v response w :
  inFlight w = [] ->
  let w0 := if truthy (slowInvocationTimeout (client w)) then arm w else w in
  run [Call cid (m_execute (Value v));
       settleSend (messageId (Invoke actions v)) response] w
  = match interpret (Invoke actions v) response with
    | Normal r =>
        settle cid (Normal r) (disarm (delivered (Invoke actions v) response w0))
    | Throw err =>
        settle cid (Throw (removeInternalStackEntries (asError err)))
          (disarm (on_client (set_successfulTestRun false)
                     (delivered (Invoke actions v) response w0)))
    end.
Proof.
  intros Hempty w0. unfold run. cbn [fold_left].
  change (step (Call cid (m_execute (Value v))) w)
    with (sendAction (Invoke actions v) (FromExecute cid) w0).
  rewrite exchange
    by (unfold w0; destruct (truthy (slowInvocationTimeout (client w))); exact Hempty).
  reflexivity.
Qed.

Lemma cleanup_then_reply cid response ok w :
  inFlight w = [] ->
  isConnected (client w) = true ->
  truthy (pandingAppCrash (client w)) = false ->
  ws_isOpen w = true ->
  successfulTestRun (client w) = ok ->
  run [Call cid m_cleanup; settleSend (messageId (Cleanup actions ok)) response] w
  = match interpret (Cleanup actions ok) response with
    | Normal _ =>
        cleanup_close cid
          (on_client (set_isConnected false)
             (delivered (Cleanup actions ok) response (disarm w)))
    | Throw e => settle cid (Throw e) (delivered (Cleanup actions ok) response (disarm w))
    end.
Proof.
  intros Hempty Hconn Hcrash Hopen Hok. subst ok. unfold run. cbn [fold_left].
  simpl step at 2. rewrite cleanup_sends by assumption.
  rewrite exchange by (rewrite disarm_inFlight; exact Hempty).
  reflexivity.
Qed.

Lemma run_pairs e1 e2 (rest : list Event) w :
  run (e1 :: e2 :: rest) w = run rest (run [e1; e2] w).
Proof. reflexivity. Qed.

Ltac as_settlements :=
  repeat match goal with
         | |- context [Reply ?i ?r] => change (Reply i r) with (settleSend i (Normal r))
         end.

(** X13.  A session that goes well: [connect()], [waitUntilReady()],
    [execute(v)] and [cleanup()], each answered with a reply its action
    accepts before the next call.  All four promises resolve, [execute] to
    the result the action read from the reply; the cleanup action is the one
    for a successful run; at the end the client is disconnected, the channel
    closed, nothing is in flight and no timer is scheduled. *)
Theorem session_that_succeeds
  (config : Config) (v r x1 x2 x4 : JsVal) (raw1 raw2 raw3 raw4 : string) :
  let login := Login actions (sessionId config) in
  interpret login (Normal raw1) = Normal x1 ->
  interpret (Ready actions) (Normal raw2) = Normal x2 ->
  interpret (Invoke actions v) (Normal raw3) = Normal r ->
  interpret (Cleanup actions true) (Normal raw4) = Normal x4 ->
  let w :=
    run [Call 0%nat (m_connect (Normal tt)); Reply (messageId login) raw1;
         Call 1%nat m_waitUntilReady; Reply (messageId (Ready actions)) raw2;
         Call 2%nat (m_execute (Value v)); Reply (messageId (Invoke actions v)) raw3;
         Call 3%nat m_cleanup; Reply (messageId (Cleanup actions true)) raw4]
        (new_Client config) in
  settled w = [(3%nat, Normal JUndefined); (2%nat, Normal r);
               (1%nat, Normal JUndefined); (0%nat, Normal JUndefined)] /\
  sent w = [Cleanup actions true; Invoke actions v; Ready actions; login] /\
  isConnected (client w) = false /\
  ws_isOpen w = false /\
  inFlight w = [] /\
  timers w = [] /\
  successfulTestRun (client w) = true.
Proof.
  intros login H1 H2 H3 H4 w. unfold w, login in *. clear w login.
  as_settlements.
  rewrite run_pairs.
  rewrite (connect_then_reply 0%nat (Normal raw1) (new_Client config) eq_refl).
  cbn [configuration client new_Client]. rewrite H1.
  rewrite run_pairs.
  match goal with
  | |- context [run [_; _] ?W] =>
      rewrite (waitUntilReady_then_reply 1%nat (Normal raw2) W eq_refl), H2
  end.
  rewrite run_pairs.
  match goal with
  | |- context [run [_; _] ?W] =>
      rewrite (execute_then_reply 2%nat v (Normal raw3) W eq_refl), H3
  end.
  match goal with
  | |- context [truthy (slowInvocationTimeout (client ?W))] =>
      change (slowInvocationTimeout (client W)) with debugSynchronization
  end.
  destruct (truthy debugSynchronization) eqn:Eon;
    match goal with
    | |- context [run [_; _] ?W] =>
        rewrite (cleanup_then_reply 3%nat (Normal raw4) (ok := true) W
                   eq_refl eq_refl eq_refl eq_refl eq_refl)
    end;
    rewrite H4; cbn; repeat split.
Qed.
(** X14.  A session in which the invocation fails: the reply to [execute]
    is one the action reads as an error.  [execute] rejects with the
    sanitized error, and [cleanup()] still runs to the end: it sends the
    cleanup action for an unsuccessful run, disconnects and closes the
    channel. *)
Theorem session_with_a_failed_invocation
  (config : Config) (v err x1 x2 x4 : JsVal) (raw1 raw2 raw3 raw4 : string) :
  let login := Login actions (sessionId config) in
  interpret login (Normal raw1) = Normal x1 ->
  interpret (Ready actions) (Normal raw2) = Normal x2 ->
  interpret (Invoke actions v) (Normal raw3) = Throw err ->
  interpret (Cleanup actions false) (Normal raw4) = Normal x4 ->
  let w :=
    run [Call 0%nat (m_connect (Normal tt)); Reply (messageId login) raw1;
         Call 1%nat m_waitUntilReady; Reply (messageId (Ready actions)) raw2;
         Call 2%nat (m_execute (Value v)); Reply (messageId (Invoke actions v)) raw3;
         Call 3%nat m_cleanup; Reply (messageId (Cleanup actions false)) raw4]
        (new_Client config) in
  settled w = [(3%nat, Normal JUndefined);
               (2%nat, Throw (removeInternalStackEntries (asError err)));
               (1%nat, Normal JUndefined); (0%nat, Normal JUndefined)] /\
  sent w = [Cleanup actions false; Invoke actions v; Ready actions; login] /\
  isConnected (client w) = false /\
  ws_isOpen w = false /\
  inFlight w = [] /\
  timers w = [] /\
  successfulTestRun (client w) = false.
Proof.
  intros login H1 H2 H3 H4 w. unfold w, login in *. clear w login.
  as_settlements.
  rewrite run_pairs.
  rewrite (connect_then_reply 0%nat (Normal raw1) (new_Client config) eq_refl).
  cbn [configuration client new_Client]. rewrite H1.
  rewrite run_pairs.
  match goal with
  | |- context [run [_; _] ?W] =>
      rewrite (waitUntilReady_then_reply 1%nat (Normal raw2) W eq_refl), H2
  end.
  rewrite run_pairs.
  match goal with
  | |- context [run [_; _] ?W] =>
      rewrite (execute_then_reply 2%nat v (Normal raw3) W eq_refl), H3
  end.
  match goal with
  | |- context [truthy (slowInvocationTimeout (client ?W))] =>
      change (slowInvocationTimeout (client W)) with debugSynchronization
  end.
  destruct (truthy debugSynchronization) eqn:Eon;
    match goal with
    | |- context [run [_; _] ?W] =>
        rewrite (cleanup_then_reply 3%nat (Normal raw4) (ok := false) W
                   eq_refl eq_refl eq_refl eq_refl eq_refl)
    end;
    rewrite H4; cbn; repeat split.
Qed.

(** A crash notice while one send is pending on an otherwise empty
    bookkeeping. *)
Lemma crash_on_single_send id raw response d action k w :
  deliversCrash (Notice id raw) (sendAction action k w) = true ->
  JSON_parse raw = Normal response ->
  errorDetailsOf response = Normal d ->
  inFlight w = [] ->
  step (Notice id raw) (sendAction action k w)
  = resume {| message := action; awaiting := k |} (Throw d)
      (on_client (set_pandingAppCrash d) (delivered action (Throw d) w)).
Proof.
  intros Hdel Hparse Hd Hempty.
  rewrite (crash_notice_step id raw (sendAction action k w) Hdel Hparse Hd).
  destruct w as [[conn cfg [o fl cbs] h t ok crash] ts nt se rj st wa no].
  unfold inFlight in Hempty. simpl in Hempty. subst fl.
  unfold inFlight, sendAction, ws_send, on_ws, on_client, set_client. simpl.
  rewrite obj_set_nil. reflexivity.
Qed.

(** X15.  A session in which the app crashes while an invocation is
    pending.  [execute] rejects with the sanitized crash detail and the run
    counts as unsuccessful.  [cleanup()] then sends no cleanup action, closes
    the channel and resolves, leaving [isConnected] true.  The next
    [getPendingCrashAndReset()] hands out the crash detail and clears it. *)
Theorem session_with_a_crash
  (config : Config) (v d response x x1 x2 : JsVal) (raw1 raw2 raw : string) :
  let login := Login actions (sessionId config) in
  let crash := AppWillTerminateWithError actions in
  interpret login (Normal raw1) = Normal x1 ->
  interpret (Ready actions) (Normal raw2) = Normal x2 ->
  JSON_parse raw = Normal response ->
  handle crash response = Normal x ->
  errorDetailsOf response = Normal d ->
  truthy d = true ->
  let w :=
    run [Call 0%nat (m_connect (Normal tt)); Reply (messageId login) raw1;
         Call 1%nat m_waitUntilReady; Reply (messageId (Ready actions)) raw2;
         Call 2%nat (m_execute (Value v)); Notice (messageId crash) raw;
         Call 3%nat m_cleanup; Call 4%nat m_getPendingCrashAndReset]
        (new_Client config) in
  settled w = [(4%nat, Normal d); (3%nat, Normal JUndefined);
               (2%nat, Throw (removeInternalStackEntries (asError d)));
               (1%nat, Normal JUndefined); (0%nat, Normal JUndefined)] /\
  sent w = [Invoke actions v; Ready actions; login] /\
  rejected w = [(messageId (Invoke actions v), d)] /\
  isConnected (client w) = true /\
  ws_isOpen w = false /\
  inFlight w = [] /\
  timers w = [] /\
  successfulTestRun (client w) = false /\
  pandingAppCrash (client w) = JUndefined.
Proof.
  intros login crash H1 H2 Hparse Hhandle Hd Htruthy w.
  unfold w, login, crash in *. clear w login crash.
  as_settlements.
  rewrite run_pairs.
  rewrite (connect_then_reply 0%nat (Normal raw1) (new_Client config) eq_refl).
  cbn [configuration client new_Client]. rewrite H1.
  rewrite run_pairs.
  match goal with
  | |- context [run [_; _] ?W] =>
      rewrite (waitUntilReady_then_reply 1%nat (Normal raw2) W eq_refl), H2
  end.
  unfold run. cbn [fold_left].
  match goal with
  | |- context [step (Call 2%nat (m_execute (Value v))) ?W] =>
      change (step (Call 2%nat (m_execute (Value v))) W)
        with (sendAction (Invoke actions v) (FromExecute 2%nat)
                (if truthy debugSynchronization then arm W else W))
  end.
  assert (Hdel : forall k W,
             eventCallbacks (ws (client W))
             = [(messageId (AppWillTerminateWithError actions),
                 (AppWillTerminateWithError actions, CrashCallback))] ->
             deliversCrash (Notice (messageId (AppWillTerminateWithError actions)) raw)
               (sendAction (Invoke actions v) k W) = true).
  { intros k W Hcbs. unfold deliversCrash, sendAction, ws_send. simpl.
    rewrite Hcbs, obj_get_single, Hparse. simpl. rewrite Hhandle. reflexivity. }
  assert (Hreg : forall t,
             eventCallbacks (setActionListener (AppWillTerminateWithError actions)
                               CrashCallback t)
             = obj_set (messageId (AppWillTerminateWithError actions))
                 (AppWillTerminateWithError actions, CrashCallback)
                 (eventCallbacks t)) by reflexivity.
  destruct (truthy debugSynchronization) eqn:Eon;
    (rewrite crash_on_single_send with (response := response) (d := d);
     [ | apply Hdel; cbn -[obj_set setActionListener]; rewrite Hreg;
         apply obj_set_nil
       | exact Hparse | exact Hd | reflexivity ]);
    match goal with
    | |- context [resume ?E (Throw d) ?W] =>
        rewrite (resume_execute E (cid := 2%nat) (Throw d) W eq_refl)
    end;
    cbn -[obj_set setActionListener]; unfold cleanup, disarm;
    cbn -[obj_set setActionListener]; rewrite Htruthy;
    unfold cleanup_close; cbn -[obj_set setActionListener]; repeat split.
Qed.
End Further.

(** * Scenarios

    The properties at work on the concrete collaborators, and the runs on
    which the specification and the code part ways. *)

Section Scenarios.
Import Demo.

Lemma dumpPendingRequests_only_status_witness :
  (forall id entry, In (id, entry) (inFlight polling) ->
                    type (message entry) = "currentStatus") /\
  inFlight (dumpPendingRequests (Some "t1") polling) = inFlight polling.
Proof.
  assert (Hall : forall id entry, In (id, entry) (inFlight polling) ->
                                  type (message entry) = "currentStatus").
  { intros id entry Hin. vm_compute in Hin. destruct Hin as [Heq | []].
    injection Heq as _ Hentry. rewrite <- Hentry. reflexivity. }
  split; [exact Hall|].
  exact (proj2 (proj2 (dumpPendingRequests_only_status (Some "t1") polling Hall))).
Defined.

Lemma cleanup_tolerates_unusable_states_witness :
  truthy (pandingAppCrash (client crashed)) = true /\
  settled (step (Call 7%nat m_cleanup) crashed)
  = (7%nat, Normal JUndefined) :: settled crashed /\
  ws_isOpen (step (Call 7%nat m_cleanup) crashed) = false.
Proof.
  assert (Hcrash : truthy (pandingAppCrash (client crashed)) = true)
    by (vm_compute; reflexivity).
  split; [exact Hcrash|].
  pose proof (cleanup_tolerates_unusable_states 7%nat crashed
                (or_intror (or_introl Hcrash))) as Hw.
  destruct Hw as (Hsettled & _ & _ & Hclosed).
  split; [exact Hsettled | exact Hclosed].
Defined.

Lemma crash_is_broadcast_and_reported_once_witness :
  deliversCrash (Notice (-10000) "AppWillTerminateWithError boom") invoking = true /\
  (r <- JSON_parse "AppWillTerminateWithError boom" ;; errorDetailsOf r)
  = Normal (JStr "boom") /\
  inFlight invoking <> [] /\
  inFlight (step (Notice (-10000) "AppWillTerminateWithError boom") invoking) = [] /\
  In (11, JStr "boom")
     (rejected (step (Notice (-10000) "AppWillTerminateWithError boom") invoking)) /\
  pandingAppCrash
    (client (step (Notice (-10000) "AppWillTerminateWithError boom") invoking))
  = JStr "boom".
Proof.
  assert (Hdel : deliversCrash (Notice (-10000) "AppWillTerminateWithError boom")
                   invoking = true) by (vm_compute; reflexivity).
  split; [exact Hdel|]. split; [vm_compute; reflexivity|].
  split; [vm_compute; discriminate|].
  pose proof (crash_is_broadcast_and_reported_once
                (-10000) "AppWillTerminateWithError boom" invoking
                (response := JObj [("type", JStr "AppWillTerminateWithError");
                                   ("params", JObj [("result", JStr "boom");
                                                    ("details", JStr "boom");
                                                    ("errorDetails", JStr "boom")])])
                (d := JStr "boom") Hdel eq_refl eq_refl) as Hw.
  destruct Hw as (_ & Hall & Hempty & Hcrash & _).
  split; [exact Hempty|]. split; [|exact Hcrash].
  apply (Hall 11 {| message := Invoke catalogue (JStr "tap");
                    awaiting := FromExecute 2%nat |}).
  vm_compute. left. reflexivity.
Defined.

Lemma execute_round_trip_witness :
  interpret (Invoke actions (JStr "tap")) (Normal "invokeResult ok")
  = Normal (JStr "ok") /\
  settled (step (settleSend 11 (Normal "invokeResult ok")) invoking)
  = (2%nat, Normal (JStr "ok")) :: settled invoking.
Proof.
  split; [vm_compute; reflexivity|].
  pose proof (proj2 (execute_round_trip 2%nat connected)
                (Value (JStr "tap")) (JStr "tap") (or_introl eq_refl)) as Hw.
  destruct Hw as (_ & _ & _ & Hsettle).
  specialize (Hsettle invoking (Normal "invokeResult ok")
                ltac:(vm_compute; reflexivity)).
  vm_compute in Hsettle |- *. exact (proj1 Hsettle).
Defined.

Lemma cleanup_sends_and_disconnects_on_success_witness :
  isConnected (client connected) = true /\
  truthy (pandingAppCrash (client connected)) = false /\
  ws_isOpen connected = true /\
  sent cleaning = Cleanup actions true :: sent connected /\
  isConnected (client (step (settleSend 4 (Normal "cleanupDone")) cleaning)) = false.
Proof.
  split; [vm_compute; reflexivity|].
  split; [vm_compute; reflexivity|].
  split; [vm_compute; reflexivity|].
  pose proof (cleanup_sends_and_disconnects_on_success 2%nat connected
                ltac:(vm_compute; reflexivity) ltac:(vm_compute; reflexivity)
                ltac:(vm_compute; reflexivity)) as Hw.
  destruct Hw as (Hsent & _ & _ & _ & Hsettle).
  specialize (Hsettle cleaning (Normal "cleanupDone") ltac:(vm_compute; reflexivity)).
  vm_compute in Hsent, Hsettle |- *.
  split; [exact Hsent | exact (proj1 Hsettle)].
Defined.

Lemma isConnected_lifecycle_witness :
  isConnected (client (new_Client config)) = false /\
  interpret (Ready actions) (Normal "ready") = Normal JUndefined /\
  isConnected (client (step (Reply (-1000) "ready")
                         (step (Call 1%nat m_waitUntilReady) (new_Client config))))
  = true.
Proof.
  pose proof (isConnected_lifecycle config) as Hw.
  destruct Hw as (Hnew & _ & _ & Hready & _).
  split; [exact Hnew|]. split; [vm_compute; reflexivity|].
  specialize (Hready 1%nat (new_Client config) "ready" JUndefined
                ltac:(vm_compute; reflexivity)).
  vm_compute in Hready |- *. exact (proj1 (proj2 Hready)).
Defined.


Lemma dumpPendingRequests_excludes_status_witness :
  map (fun entry => type (message entry)) (obj_values (inFlight busy))
  = ["login"; "currentStatus"; "invoke"] /\
  warnings (dumpPendingRequests (Some "taps the button") busy)
  = [("App has not responded to the network requests below:" ++ nl
      ++ "  (id = 1) login: {...}" ++ nl
      ++ "  (id = 11) invoke: " ++ dquote ++ "tap" ++ dquote ++ nl ++ nl
      ++ "That might be the reason why the test " ++ dquote ++ "taps the button"
      ++ dquote ++ " has timed out." ++ nl)%string] /\
  inFlight (dumpPendingRequests (Some "taps the button") busy) = [].
Proof.
  split; [vm_compute; reflexivity|].
  assert (Hperm : Permutation (obj_values (inFlight busy))
                    [ {| message := Login catalogue (JStr "session-1");
                         awaiting := FromPlain 0%nat |};
                      {| message := CurrentStatus catalogue; awaiting := FromWatchdog |};
                      {| message := Invoke catalogue (JStr "tap");
                         awaiting := FromExecute 1%nat |} ])
    by (vm_compute; apply Permutation_refl).
  pose proof (dumpPendingRequests_excludes_status (Some "taps the button") busy
                Hperm eq_refl eq_refl eq_refl) as Hw.
  destruct Hw as [Hwarn Hempty].
  split; [|exact Hempty].
  vm_compute in Hwarn |- *.
  destruct Hwarn as [Hl | Hr]; [exact Hl | discriminate Hr].
Defined.

Lemma resume_execute_clears_stored_timer_witness :
  awaiting {| message := Invoke actions (JStr "tap"); awaiting := FromExecute 2%nat |}
  = FromExecute 2%nat /\
  slowInvocationStatusHandler (client invoking) = Some 0%nat /\
  In 0%nat (timers invoking) /\
  ~ In 0%nat
      (timers (resume {| message := Invoke actions (JStr "tap");
                         awaiting := FromExecute 2%nat |}
                      (Normal "invokeResult ok") invoking)).
Proof.
  assert (Hh : slowInvocationStatusHandler (client invoking) = Some 0%nat)
    by (vm_compute; reflexivity).
  split; [reflexivity|]. split; [exact Hh|].
  split; [vm_compute; left; reflexivity|].
  exact (resume_execute_clears_stored_timer
           {| message := Invoke catalogue (JStr "tap"); awaiting := FromExecute 2%nat |}
           (Normal "invokeResult ok") invoking eq_refl Hh).
Defined.

(** ** Where the code departs from the sentences of the specification *)

(** C2.  A producer that throws: [execute] rejects with the thrown value
    itself, which is not the sanitized error, and [successfulTestRun] is
    still true. *)
Lemma execute_throwing_producer_counterexample :
  settled (step (Call 2%nat (m_execute (Producer (Throw (JStr "boom"))))) connected)
  = (2%nat, Throw (JStr "boom")) :: settled connected /\
  removeInternalStackEntries (asError (JStr "boom")) <> JStr "boom" /\
  successfulTestRun
    (client (step (Call 2%nat (m_execute (Producer (Throw (JStr "boom"))))) connected))
  = true.
Proof. vm_compute. split; [reflexivity|]. split; [discriminate | reflexivity]. Qed.

(** C3.  Connected, no crash pending, channel open: [cleanup()] sends its
    action; the transport rejects the send, or the app crashes while the
    send is pending; [cleanup()] rejects and [isConnected] is still true. *)
Lemma cleanup_failed_send_counterexample :
  isConnected (client connected) = true /\
  truthy (pandingAppCrash (client connected)) = false /\
  ws_isOpen connected = true /\
  sent cleaning = Cleanup actions true :: sent connected /\
  settled (step (Reject 4 (JStr "socket hang up")) cleaning)
  = (2%nat, Throw (JStr "socket hang up")) :: settled connected /\
  isConnected (client (step (Reject 4 (JStr "socket hang up")) cleaning)) = true /\
  settled (step (Notice (-10000) "AppWillTerminateWithError boom") cleaning)
  = (2%nat, Throw (JStr "boom")) :: settled connected /\
  isConnected
    (client (step (Notice (-10000) "AppWillTerminateWithError boom") cleaning))
  = true.
Proof. vm_compute. repeat split. Qed.

(** C5.  Connected with a crash pending: [cleanup()] returns, the channel
    is closed, and [isConnected] is still true. *)
Lemma cleanup_after_crash_counterexample :
  isConnected (client crashed) = true /\
  truthy (pandingAppCrash (client crashed)) = true /\
  settled (step (Call 7%nat m_cleanup) crashed)
  = (7%nat, Normal JUndefined) :: settled crashed /\
  ws_isOpen (step (Call 7%nat m_cleanup) crashed) = false /\
  isConnected (client (step (Call 7%nat m_cleanup) crashed)) = true.
Proof. vm_compute. repeat split. Qed.

(** C7.  The watchdog timer fires while the invocation is pending and its
    status query goes out.  The invocation then settles, with a result or
    with an error: the handle it clears is the one that has fired, and no
    timer is scheduled.  When the reply to the status query arrives, the
    callback schedules a new timer, although the invocation is over; that
    timer fires and another status query is sent. *)
Theorem watchdog_outlives_invocation :
  let queried := step (TimerFires 0%nat) invoking in
  let resolved := step (Reply 11 "invokeResult ok") queried in
  let failed := step (Reply 11 "testFailed boom") queried in
  timers invoking = [0%nat] /\
  sent queried = CurrentStatus actions :: sent invoking /\
  (settled resolved = (2%nat, Normal (JStr "ok")) :: settled connected /\
   timers resolved = [] /\
   timers (step (Reply 5 "currentStatusResult") resolved) = [1%nat] /\
   sent (run [Reply 5 "currentStatusResult"; TimerFires 1%nat] resolved)
   = CurrentStatus actions :: sent resolved) /\
  (settled failed
   = (2%nat, Throw (removeInternalStackEntries (asError (JStr "boom"))))
       :: settled connected /\
   timers failed = [] /\
   timers (step (Reply 5 "currentStatusResult") failed) = [1%nat] /\
   sent (run [Reply 5 "currentStatusResult"; TimerFires 1%nat] failed)
   = CurrentStatus actions :: sent failed).
Proof. vm_compute. repeat split. Qed.
End Scenarios.

(** * Further scenarios *)

Section FurtherScenarios.
Import Demo.

Lemma plain_method_round_trip_witness :
  plainAction m_shake = Some (Shake actions) /\
  sent (step (Call 7%nat m_shake) connected) = Shake actions :: sent connected.
Proof.
  split; [reflexivity|].
  exact (proj1 (plain_method_round_trip 7%nat m_shake connected eq_refl)).
Defined.

Lemma successfulTestRun_only_cleared_by_execute_witness :
  successfulTestRun (client failedRun) = false /\
  successfulTestRun (client (run [Call 7%nat m_shake] failedRun)) = false.
Proof.
  assert (Hf : successfulTestRun (client failedRun) = false)
    by (vm_compute; reflexivity).
  split; [exact Hf|].
  exact (proj1 successfulTestRun_only_cleared_by_execute
           [Call 7%nat m_shake] failedRun Hf).
Defined.

Lemma watchdog_cycle_witness :
  In 0%nat (timers invoking) /\
  ~ In 0%nat (timers (step (TimerFires 0%nat) invoking)).
Proof.
  assert (Hin : In 0%nat (timers invoking)) by (vm_compute; left; reflexivity).
  split; [exact Hin|].
  exact (proj1 (watchdog_cycle 0%nat invoking Hin)).
Defined.

Lemma cleanup_cancels_stored_timer_witness :
  slowInvocationStatusHandler (client invoking) = Some 0%nat /\
  ~ In 0%nat (timers (step (Call 7%nat m_cleanup) invoking)).
Proof.
  assert (Hh : slowInvocationStatusHandler (client invoking) = Some 0%nat)
    by (vm_compute; reflexivity).
  split; [exact Hh|].
  exact (proj1 (cleanup_cancels_stored_timer 7%nat invoking Hh)).
Defined.

Lemma watchdog_stays_off_witness :
  truthy (@debugSynchronization quiet) = false /\
  timers (@run quiet [Call 0%nat (m_connect (Normal tt));
                      Call 1%nat (m_execute (Value (JStr "tap")))]
            (@new_Client quiet config)) = [].
Proof.
  split; [reflexivity|].
  exact (proj1 (@watchdog_stays_off quiet config
                  [Call 0%nat (m_connect (Normal tt));
                   Call 1%nat (m_execute (Value (JStr "tap")))] eq_refl)).
Defined.


Lemma crash_fails_every_caller_witness :
  deliversCrash (Notice (-10000) "AppWillTerminateWithError boom") cleaning = true /\
  (r <- JSON_parse "AppWillTerminateWithError boom" ;; errorDetailsOf r)
  = Normal (JStr "boom") /\
  In (2%nat, Throw (JStr "boom"))
     (settled (step (Notice (-10000) "AppWillTerminateWithError boom") cleaning)).
Proof.
  assert (Hdel : deliversCrash (Notice (-10000) "AppWillTerminateWithError boom")
                   cleaning = true) by (vm_compute; reflexivity).
  split; [exact Hdel|]. split; [vm_compute; reflexivity|].
  pose proof (crash_fails_every_caller
                (-10000) "AppWillTerminateWithError boom" cleaning
                (response := JObj [("type", JStr "AppWillTerminateWithError");
                                   ("params", JObj [("result", JStr "boom");
                                                    ("details", JStr "boom");
                                                    ("errorDetails", JStr "boom")])])
                (d := JStr "boom") Hdel eq_refl eq_refl) as Hw.
  destruct Hw as (Hseen & _).
  apply (Hseen 4 {| message := Cleanup catalogue true; awaiting := FromCleanup 2%nat |}).
  - vm_compute. left. reflexivity.
  - reflexivity.
Defined.

Lemma malformed_notice_is_ignored_witness :
  obj_get (-10000) (eventCallbacks (ws (client invoking)))
  = Some (AppWillTerminateWithError actions, CrashCallback) /\
  (parsedResponse <- JSON_parse "ready" ;;
   _ <- handle (AppWillTerminateWithError actions) parsedResponse ;;
   errorDetailsOf parsedResponse) = Throw (JStr "was expecting AppWillTerminateWithError") /\
  step (Notice (-10000) "ready") invoking = invoking.
Proof.
  assert (Hcb : obj_get (-10000) (eventCallbacks (ws (client invoking)))
                = Some (AppWillTerminateWithError actions, CrashCallback))
    by (vm_compute; reflexivity).
  split; [exact Hcb|]. split; [vm_compute; reflexivity|].
  apply malformed_notice_is_ignored. rewrite Hcb.
  exists (JStr "was expecting AppWillTerminateWithError"). vm_compute. reflexivity.
Defined.

Lemma nonresponsiveness_is_forwarded_only_witness :
  obj_get (-10001) (eventCallbacks (ws (client listening)))
  = Some (AppNonresponsive actions, NonresponsivenessCallback) /\
  obj_get (-10000) (eventCallbacks (ws (client listening)))
  = obj_get (-10000) (eventCallbacks (ws (client connected))).
Proof.
  pose proof (nonresponsiveness_is_forwarded_only 5%nat connected) as Hw.
  destruct Hw as (Hreg & Hkept & _).
  split; [exact Hreg|].
  apply Hkept. discriminate.
Defined.

Lemma dumpPendingRequests_reports_and_clears_witness :
  filter (fun m => negb (isStatusPoll m))
         (map (@message) (obj_values (inFlight busy))) <> [] /\
  inFlight (dumpPendingRequests None busy) = [].
Proof.
  assert (Hsome : filter (fun m => negb (isStatusPoll m))
                         (map (@message) (obj_values (inFlight busy))) <> [])
    by (vm_compute; discriminate).
  split; [exact Hsome|].
  exact (proj1 (proj2 (dumpPendingRequests_reports_and_clears None busy Hsome))).
Defined.

Lemma connect_opens_then_logs_in_witness :
  ws_isOpen (new_Client config) = false /\
  ws_isOpen (step (Call 0%nat (m_connect (Normal tt))) (new_Client config)) = true.
Proof.
  split; [reflexivity|].
  exact (proj1 (proj2 (connect_opens_then_logs_in 0%nat (new_Client config)))).
Defined.

Lemma session_that_succeeds_witness :
  interpret (Login actions (sessionId config)) (Normal "loginSuccess")
  = Normal JUndefined /\
  interpret (Ready actions) (Normal "ready") = Normal JUndefined /\
  interpret (Invoke actions (JStr "tap")) (Normal "invokeResult ok")
  = Normal (JStr "ok") /\
  interpret (Cleanup actions true) (Normal "cleanupDone") = Normal JUndefined /\
  ws_isOpen
    (run [Call 0%nat (m_connect (Normal tt));
          Reply (messageId (Login actions (sessionId config))) "loginSuccess";
          Call 1%nat m_waitUntilReady; Reply (messageId (Ready actions)) "ready";
          Call 2%nat (m_execute (Value (JStr "tap")));
          Reply (messageId (Invoke actions (JStr "tap"))) "invokeResult ok";
          Call 3%nat m_cleanup;
          Reply (messageId (Cleanup actions true)) "cleanupDone"]
         (new_Client config)) = false.
Proof.
  assert (H1 : interpret (Login actions (sessionId config)) (Normal "loginSuccess")
               = Normal JUndefined) by (vm_compute; reflexivity).
  assert (H2 : interpret (Ready actions) (Normal "ready") = Normal JUndefined)
    by (vm_compute; reflexivity).
  assert (H3 : interpret (Invoke actions (JStr "tap")) (Normal "invokeResult ok")
               = Normal (JStr "ok")) by (vm_compute; reflexivity).
  assert (H4 : interpret (Cleanup actions true) (Normal "cleanupDone")
               = Normal JUndefined) by (vm_compute; reflexivity).
  repeat (split; [assumption|]).
  exact (proj1 (proj2 (proj2 (proj2
           (session_that_succeeds config (JStr "tap") "loginSuccess" "ready"
              "invokeResult ok" "cleanupDone" H1 H2 H3 H4))))).
Defined.

Lemma session_with_a_failed_invocation_witness :
  interpret (Login actions (sessionId config)) (Normal "loginSuccess")
  = Normal JUndefined /\
  interpret (Ready actions) (Normal "ready") = Normal JUndefined /\
  interpret (Invoke actions (JStr "tap")) (Normal "testFailed boom")
  = Throw (JStr "boom") /\
  interpret (Cleanup actions false) (Normal "cleanupDone") = Normal JUndefined /\
  successfulTestRun
    (client
       (run [Call 0%nat (m_connect (Normal tt));
             Reply (messageId (Login actions (sessionId config))) "loginSuccess";
             Call 1%nat m_waitUntilReady; Reply (messageId (Ready actions)) "ready";
             Call 2%nat (m_execute (Value (JStr "tap")));
             Reply (messageId (Invoke actions (JStr "tap"))) "testFailed boom";
             Call 3%nat m_cleanup;
             Reply (messageId (Cleanup actions false)) "cleanupDone"]
            (new_Client config))) = false.
Proof.
  assert (H1 : interpret (Login actions (sessionId config)) (Normal "loginSuccess")
               = Normal JUndefined) by (vm_compute; reflexivity).
  assert (H2 : interpret (Ready actions) (Normal "ready") = Normal JUndefined)
    by (vm_compute; reflexivity).
  assert (H3 : interpret (Invoke actions (JStr "tap")) (Normal "testFailed boom")
               = Throw (JStr "boom")) by (vm_compute; reflexivity).
  assert (H4 : interpret (Cleanup actions false) (Normal "cleanupDone")
               = Normal JUndefined) by (vm_compute; reflexivity).
  repeat (split; [assumption|]).
  exact (proj2 (proj2 (proj2 (proj2 (proj2 (proj2
           (session_with_a_failed_invocation config (JStr "tap") "loginSuccess"
              "ready" "testFailed boom" "cleanupDone" H1 H2 H3 H4))))))).
Defined.

Lemma session_with_a_crash_witness :
  interpret (Login actions (sessionId config)) (Normal "loginSuccess")
  = Normal JUndefined /\
  interpret (Ready actions) (Normal "ready") = Normal JUndefined /\
  JSON_parse "AppWillTerminateWithError boom"
  = Normal (JObj [("type", JStr "AppWillTerminateWithError");
                  ("params", JObj [("result", JStr "boom"); ("details", JStr "boom");
                                   ("errorDetails", JStr "boom")])]) /\
  truthy (JStr "boom") = true /\
  isConnected
    (client
       (run [Call 0%nat (m_connect (Normal tt));
             Reply (messageId (Login actions (sessionId config))) "loginSuccess";
             Call 1%nat m_waitUntilReady; Reply (messageId (Ready actions)) "ready";
             Call 2%nat (m_execute (Value (JStr "tap")));
             Notice (messageId (AppWillTerminateWithError actions))
                    "AppWillTerminateWithError boom";
             Call 3%nat m_cleanup; Call 4%nat m_getPendingCrashAndReset]
            (new_Client config))) = true.
Proof.
  assert (H1 : interpret (Login actions (sessionId config)) (Normal "loginSuccess")
               = Normal JUndefined) by (vm_compute; reflexivity).
  assert (H2 : interpret (Ready actions) (Normal "ready") = Normal JUndefined)
    by (vm_compute; reflexivity).
  split; [exact H1|]. split; [exact H2|]. split; [reflexivity|].
  split; [reflexivity|].
  exact (proj1 (proj2 (proj2 (proj2
           (session_with_a_crash config (JStr "tap")
              (d := JStr "boom")
              (response := JObj [("type", JStr "AppWillTerminateWithError");
                                 ("params", JObj [("result", JStr "boom");
                                                  ("details", JStr "boom");
                                                  ("errorDetails", JStr "boom")])])
              (x := JUndefined)
              "loginSuccess" "ready" "AppWillTerminateWithError boom"
              H1 H2 eq_refl eq_refl eq_refl eq_refl))))).
Defined.
End FurtherScenarios.
